(** * pacsat_telem: the periodic sample / store / roll loop of telem_main.c

    A shallow embedding of [src/telem_main.c] and [inc/pacsat_telem.h].
    The program polls the wall clock in a tight loop; when the WOD period
    has elapsed it appends the current telemetry frame to the WOD file and
    rolls the file once it is too large; when the sample period has elapsed
    it reads the sensors and broadcasts the frame; it exits once too many
    file errors have accumulated.

    The collaborators declared in headers that are not part of this
    repository ([log_append], [log_add_to_directory], [send_raw_packet],
    [sizeof(sensor_telemetry_t)]) are parameters of the embedding.  Every
    call to one of them is recorded in a trace, as is everything the program
    prints. *)

From Stdlib Require Import ZArith List Ascii String Bool Lia.
Import ListNotations.
Local Open Scope Z_scope.

(** ** C integer conversions (LP64: [long], [time_t] and [size_t] are 64 bits) *)

Module CInt.

(** Value of type [long] holding the two's-complement image of [z]. *)
Definition to_long (z : Z) : Z := (z + 2 ^ 63) mod 2 ^ 64 - 2 ^ 63.

(** Conversion of a [long] to [unsigned long] / [size_t], as performed by
    the usual arithmetic conversions when a [long] meets a [size_t]. *)
Definition to_unsigned_long (z : Z) : Z := z mod 2 ^ 64.

(** Conversion to [uint32_t] (the parameter type of [read_sensors]). *)
Definition to_uint32 (z : Z) : Z := z mod 2 ^ 32.

(** Value of type [int] holding the two's-complement image of [z]: the
    number [printf] shows with [%d] for a 32-bit argument. *)
Definition to_int (z : Z) : Z := (z + 2 ^ 31) mod 2 ^ 32 - 2 ^ 31.

Definition in_long (z : Z) : Prop := - 2 ^ 63 <= z < 2 ^ 63.

(** [a < b] in C for [a : long] and [b : size_t]: both operands are
    converted to the unsigned type before they are compared. *)
Definition long_lt_size_t (a b : Z) : bool :=
  to_unsigned_long a <? to_unsigned_long b.

(** [a / b] in C on signed operands truncates toward zero. *)
Definition c_div (a b : Z) : Z := Z.quot a b.

End CInt.
Import CInt.

(** ** inc/pacsat_telem.h *)

Module Header.
Definition WOD_PATH : string := "wod".
Definition PERIOD_TO_SAMPLE_TELEM_IN_SECONDS : Z := 10.
Definition PERIOD_TO_STORE_WOD_IN_SECONDS : Z := 60.
Definition MAX_WOD_FILE_SIZE_IN_KB : Z := 10.
Definition MAX_NUMBER_FILE_IO_ERRORS : Z := 5.
Definition BROADCAST_CALLSIGN : string := "AMSAT-11".
Definition TIME_CALL : string := "TIME-1".
Definition TELEM_TYPE_1_CALL : string := "TLMP1".
Definition TELEM_TYPE_2_CALL : string := "TLMP2".
Definition PID_COMMAND : Z := 0xBC.
Definition PID_FILE : Z := 0xBB.
Definition PID_NO_PROTOCOL : Z := 0xF0.
End Header.
Import Header.

(** The four tuning macros of the header, gathered so that statements can
    range over other settings than the ones that are compiled in. *)
Record config : Type := Config {
  period_to_sample_telem_in_seconds : Z;
  period_to_store_wod_in_seconds : Z;
  max_wod_file_size_in_kb : Z;
  max_number_file_io_errors : Z
}.

Definition header_config : config :=
  Config PERIOD_TO_SAMPLE_TELEM_IN_SECONDS PERIOD_TO_STORE_WOD_IN_SECONDS
         MAX_WOD_FILE_SIZE_IN_KB MAX_NUMBER_FILE_IO_ERRORS.

Definition EXIT_SUCCESS : Z := 0.
Definition MAX_FILE_PATH_LEN : nat := 256.

(** ** The telemetry frame

    [sensor_telemetry.h] is not in the repository; the record has the
    fields that [read_sensors] assigns. *)
Record sensor_telemetry_t : Type := SensorTelemetry {
  timestamp : Z;
  SHTC3_temp : Z;
  SHTC3_humidity : Z;
  TempHumidityValid : Z;
  LPS22_pressure : Z;
  LPS22_temp : Z;
  PressureValid : Z
}.

(** A global with static storage starts zeroed. *)
Definition zero_telemetry : sensor_telemetry_t := SensorTelemetry 0 0 0 0 0 0 0.

(** ** Observable behaviour *)

Inductive payload : Type :=
| PayloadBytes (bs : list Z)
| PayloadFrame (f : sensor_telemetry_t).

(** The lines the program prints; [shown] is the number that [%d] puts
    into the line, [size] the size in bytes whose value in KB is shown. *)
Inductive message : Type :=
| MsgCouldNotSave (path : string)
| MsgWroteWod (path : string) (shown : Z)
| MsgRolling (size : Z)
| MsgSendingTelem (shown : Z)
| MsgTooManyErrors
| MsgSignalReceived.

Inductive event : Type :=
| EvLogAppend (path : string) (frame : sensor_telemetry_t) (len : Z)
| EvLogAddToDirectory (path : string)
| EvSendRawPacket (from to : string) (pid : Z) (data : payload) (len : Z)
| EvPrintf (msg : message)
| EvDebugPrint (msg : message)
| EvExit (code : Z).

Definition is_print (e : event) : bool :=
  match e with
  | EvPrintf _ | EvDebugPrint _ => true
  | _ => false
  end.

Definition is_log_append (e : event) : bool :=
  match e with EvLogAppend _ _ _ => true | _ => false end.

Definition is_log_add_to_directory (e : event) : bool :=
  match e with EvLogAddToDirectory _ => true | _ => false end.

Definition is_send_raw_packet (e : event) : bool :=
  match e with EvSendRawPacket _ _ _ _ _ => true | _ => false end.

(** What one pass through the loop body did. *)
Record store_report : Type := StoreReport {
  size : Z;          (* the [long size] that [log_append] returned *)
  failed : bool;     (* the error branch of line 160 was taken *)
  rolled : bool      (* [log_add_to_directory] was called *)
}.

Record iter_report : Type := IterReport {
  stored : option store_report;
  sampled : bool;
  exited : bool
}.

Definition did_store (r : iter_report) : bool :=
  match stored r with Some _ => true | None => false end.

Definition did_fail (r : iter_report) : bool :=
  match stored r with Some s => failed s | None => false end.

Definition did_roll (r : iter_report) : bool :=
  match stored r with Some s => rolled s | None => false end.

(** [strlcpy]/[strlcat] into a buffer of [MAX_FILE_PATH_LEN] bytes keep at
    most [MAX_FILE_PATH_LEN - 1] characters. *)
Definition make_wod_telem_path (data_folder_path : string) : string :=
  substring 0 (MAX_FILE_PATH_LEN - 1)
    (substring 0 (MAX_FILE_PATH_LEN - 1) data_folder_path ++ "/" ++ WOD_PATH).

(** ** The program *)

Section Program.

(** State of the collaborators (file system, TNC). *)
Variable World : Type.
(** [sizeof(sensor_telemetry_t)]. *)
Variable sizeof_sensor_telemetry : Z.
(** [long log_append(path, data, len)]. *)
Variable log_append : string -> sensor_telemetry_t -> Z -> World -> Z * World.
(** [log_add_to_directory(path)]; its result is not used. *)
Variable log_add_to_directory : string -> World -> World.
(** [int send_raw_packet(from, to, pid, data, len)]. *)
Variable send_raw_packet :
  string -> string -> Z -> payload -> Z -> World -> Z * World.

Variable cfg : config.
Variable wod_telem_path : string.

(** The globals of telem_main.c, the collaborators' state and the trace
    (oldest event first). *)
Record machine : Type := Machine {
  g_verbose : bool;
  g_sensor_telemetry : sensor_telemetry_t;
  last_time_checked_wod : Z;
  last_time_checked_period_to_sample_telem : Z;
  g_num_of_file_io_errors : Z;
  world : World;
  trace : list event
}.

Definition M (A : Type) : Type := machine -> A * machine.

Definition ret {A : Type} (a : A) : M A := fun m => (a, m).

Definition bind {A B : Type} (c : M A) (k : A -> M B) : M B :=
  fun m => let (a, m') := c m in k a m'.

Notation "x <- c ;; k" := (bind c (fun x => k))
  (at level 61, c at next level, right associativity).
Notation "c ;; k" := (bind c (fun _ => k))
  (at level 61, right associativity).

Definition gets {A : Type} (f : machine -> A) : M A := fun m => (f m, m).

Definition emit (e : event) : M unit :=
  fun m => (tt, Machine (g_verbose m) (g_sensor_telemetry m)
                  (last_time_checked_wod m)
                  (last_time_checked_period_to_sample_telem m)
                  (g_num_of_file_io_errors m) (world m) (trace m ++ [e])).

Definition set_world (w : World) : M unit :=
  fun m => (tt, Machine (g_verbose m) (g_sensor_telemetry m)
                  (last_time_checked_wod m)
                  (last_time_checked_period_to_sample_telem m)
                  (g_num_of_file_io_errors m) w (trace m)).

Definition set_g_sensor_telemetry (f : sensor_telemetry_t) : M unit :=
  fun m => (tt, Machine (g_verbose m) f
                  (last_time_checked_wod m)
                  (last_time_checked_period_to_sample_telem m)
                  (g_num_of_file_io_errors m) (world m) (trace m)).

Definition set_last_time_checked_wod (t : Z) : M unit :=
  fun m => (tt, Machine (g_verbose m) (g_sensor_telemetry m) t
                  (last_time_checked_period_to_sample_telem m)
                  (g_num_of_file_io_errors m) (world m) (trace m)).

Definition set_last_time_checked_period_to_sample_telem (t : Z) : M unit :=
  fun m => (tt, Machine (g_verbose m) (g_sensor_telemetry m)
                  (last_time_checked_wod m) t
                  (g_num_of_file_io_errors m) (world m) (trace m)).

Definition set_g_num_of_file_io_errors (n : Z) : M unit :=
  fun m => (tt, Machine (g_verbose m) (g_sensor_telemetry m)
                  (last_time_checked_wod m)
                  (last_time_checked_period_to_sample_telem m)
                  n (world m) (trace m)).

Definition when (b : bool) (c : M unit) : M unit :=
  if b then c else ret tt.

Definition printf (msg : message) : M unit := emit (EvPrintf msg).
Definition debug_print (msg : message) : M unit := emit (EvDebugPrint msg).

(** Calls to the collaborators: the call is traced, the collaborator's
    state is threaded. *)
Definition call_log_append (path : string) (f : sensor_telemetry_t)
    (len : Z) : M Z :=
  emit (EvLogAppend path f len) ;;
  w <- gets world ;;
  let (r, w') := log_append path f len w in
  set_world w' ;;
  ret (to_long r).

Definition call_log_add_to_directory (path : string) : M unit :=
  emit (EvLogAddToDirectory path) ;;
  w <- gets world ;;
  set_world (log_add_to_directory path w).

Definition call_send_raw_packet (from to : string) (pid : Z)
    (data : payload) (len : Z) : M Z :=
  emit (EvSendRawPacket from to pid data len) ;;
  w <- gets world ;;
  let (rc, w') := send_raw_packet from to pid data len w in
  set_world w' ;;
  ret rc.

(** [signal_exit]: [usleep(2/1000)] sleeps for 0 microseconds. *)
Definition signal_exit (sig : Z) : M unit :=
  v <- gets g_verbose ;;
  when (v && (0 <? sig)) (printf MsgSignalReceived) ;;
  emit (EvExit 0).

(** [read_sensors(uint32_t now)]. *)
Definition read_sensors (now : Z) : M Z :=
  set_g_sensor_telemetry (SensorTelemetry now 11 55 1 66 22 1) ;;
  ret EXIT_SUCCESS.

(** [tlm_send_time]; [now] is what [time(0)] returns.  The four bytes are
    stored in a [char] array and handed over as [unsigned char]. *)
Definition tlm_send_time (now : Z) : M Z :=
  let status :=
    [ Z.land now 0xff;
      Z.land (Z.shiftr now 8) 0xff;
      Z.land (Z.shiftr now 16) 0xff;
      Z.land (Z.shiftr now 24) 0xff ] in
  rc <- call_send_raw_packet BROADCAST_CALLSIGN TIME_CALL PID_NO_PROTOCOL
          (PayloadBytes status) 4 ;;
  ret rc.

(** The timestamp is an unsigned 32-bit field and is printed with [%d]. *)
Definition tlm_send_sensor_telem : M Z :=
  f <- gets g_sensor_telemetry ;;
  debug_print (MsgSendingTelem (to_int (timestamp f))) ;;
  rc <- call_send_raw_packet BROADCAST_CALLSIGN TELEM_TYPE_1_CALL
          PID_NO_PROTOCOL (PayloadFrame f) sizeof_sensor_telemetry ;;
  ret rc.

(** Lines 157-173: the body of the WOD branch. *)
Definition store_wod (now : Z) : M store_report :=
  set_last_time_checked_wod now ;;
  f <- gets g_sensor_telemetry ;;
  sz <- call_log_append wod_telem_path f sizeof_sensor_telemetry ;;
  v <- gets g_verbose ;;
  bad <- (if long_lt_size_t sz sizeof_sensor_telemetry then
            when v (printf (MsgCouldNotSave wod_telem_path)) ;;
            n <- gets g_num_of_file_io_errors ;;
            set_g_num_of_file_io_errors (n + 1) ;;
            ret true
          else
            when v (printf (MsgWroteWod wod_telem_path
                              (to_int (timestamp f)))) ;;
            ret false) ;;
  roll <- (if max_wod_file_size_in_kb cfg <? c_div sz 1024 then
             debug_print (MsgRolling sz) ;;
             call_log_add_to_directory wod_telem_path ;;
             ret true
           else ret false) ;;
  ret (StoreReport sz bad roll).

(** Lines 179-185: the body of the sample branch.  The value returned by
    [tlm_send_sensor_telem] is dropped. *)
Definition sample_telem (now : Z) : M unit :=
  set_last_time_checked_period_to_sample_telem now ;;
  read_sensors (to_uint32 now) ;;
  tlm_send_sensor_telem ;;
  ret tt.

(** The two conditions that guard the branches (lines 153-156 and 178). *)
Definition store_due (now last : Z) : bool :=
  (0 <? period_to_sample_telem_in_seconds cfg)
  && (0 <? period_to_store_wod_in_seconds cfg)
  && (period_to_store_wod_in_seconds cfg <? now - last).

Definition sample_due (now last : Z) : bool :=
  (0 <? period_to_sample_telem_in_seconds cfg)
  && (period_to_sample_telem_in_seconds cfg <? now - last).

(** Lines 151-193: one pass through the body of [while (1)], [now] being
    the value of [time(0)]. *)
Definition main_iter (now : Z) : M iter_report :=
  r <- (if 0 <? period_to_sample_telem_in_seconds cfg then
          st <- (if 0 <? period_to_store_wod_in_seconds cfg then
                   lw <- gets last_time_checked_wod ;;
                   if period_to_store_wod_in_seconds cfg <? now - lw then
                     s <- store_wod now ;; ret (Some s)
                   else ret None
                 else ret None) ;;
          ls <- gets last_time_checked_period_to_sample_telem ;;
          sa <- (if period_to_sample_telem_in_seconds cfg <? now - ls then
                   sample_telem now ;; ret true
                 else ret false) ;;
          ret (st, sa)
        else ret (None, false)) ;;
  n <- gets g_num_of_file_io_errors ;;
  ex <- (if max_number_file_io_errors cfg <? n then
           printf MsgTooManyErrors ;;
           signal_exit 0 ;;
           ret true
         else ret false) ;;
  ret (IterReport (fst r) (snd r) ex).

(** The loop, driven by the successive values of [time(0)]; it stops
    when the body exits the process.  This is the loop of a process that
    no signal interrupts: the handlers of lines 76-79 run [signal_exit]
    whenever SIGQUIT, SIGTERM or SIGINT arrives, at any point of a pass,
    and that way out is not part of [main_loop]. *)
Fixpoint main_loop (ticks : list Z) : M (list (Z * iter_report)) :=
  match ticks with
  | [] => ret []
  | now :: rest =>
      r <- main_iter now ;;
      if exited r then ret [(now, r)]
      else log <- main_loop rest ;; ret ((now, r) :: log)
  end.

(** The globals as their initialisers leave them. *)
Definition initial_machine (verbose : bool) (w : World) : machine :=
  Machine verbose zero_telemetry 0 0 0 w [].

(** Lines 147-148. *)
Definition main_startup (t0 : Z) : M unit :=
  set_last_time_checked_wod t0.

(** [main] from line 147 on: [t0] is the first value of [time(0)],
    [ticks] are the values it returns in the loop. *)
Definition main (t0 : Z) (ticks : list Z) : M (list (Z * iter_report)) :=
  main_startup t0 ;;
  main_loop ticks.

End Program.


Arguments Machine {World}.
Arguments g_verbose {World}.
Arguments g_sensor_telemetry {World}.
Arguments last_time_checked_wod {World}.
Arguments last_time_checked_period_to_sample_telem {World}.
Arguments g_num_of_file_io_errors {World}.
Arguments world {World}.
Arguments trace {World}.

(** ** Reading a run *)

Definition run_log : Type := list (Z * iter_report).

Definition count_sampled (log : run_log) : nat :=
  List.length (filter (fun e => sampled (snd e)) log).

Definition count_stored (log : run_log) : nat :=
  List.length (filter (fun e => did_store (snd e)) log).

Definition count_failed (log : run_log) : nat :=
  List.length (filter (fun e => did_fail (snd e)) log).

Definition count_rolled (log : run_log) : nat :=
  List.length (filter (fun e => did_roll (snd e)) log).

Definition has_exited (log : run_log) : bool :=
  existsb (fun e => exited (snd e)) log.

Definition sample_times (log : run_log) : list Z :=
  map fst (filter (fun e => sampled (snd e)) log).

Definition store_times (log : run_log) : list Z :=
  map fst (filter (fun e => did_store (snd e)) log).

(** The sizes that the successive calls of [log_append] returned. *)
Definition store_sizes (log : run_log) : list Z :=
  flat_map (fun e => match stored (snd e) with
                     | Some s => [size s]
                     | None => []
                     end) log.

Definition count_events (p : event -> bool) (tr : list event) : nat :=
  List.length (filter p tr).

Definition printed (tr : list event) : list event := filter is_print tr.

(** Every call of [log_add_to_directory] in [tr] comes after a call of
    [log_append] that has returned and has not been followed by another
    roll; [seen] tells whether such an append precedes [tr]. *)
Fixpoint roll_only_after_append (seen : bool) (tr : list event) : bool :=
  match tr with
  | [] => true
  | EvLogAppend _ _ _ :: rest => roll_only_after_append true rest
  | EvLogAddToDirectory _ :: rest =>
      seen && roll_only_after_append false rest
  | _ :: rest => roll_only_after_append seen rest
  end.

(** Some sample action of the run fell in the closed interval [[a, b]]. *)
Definition sampled_in (log : run_log) (a b : Z) : Prop :=
  exists u, In u (sample_times log) /\ a <= u <= b.

(** A failed send has left a mark: the failure counter has moved, or, in
    verbose mode, the output differs from that of the same pass with a
    successful send. *)
Definition send_failure_reported {World : Type}
    (before after_failed after_ok : machine World) : Prop :=
  g_num_of_file_io_errors after_failed <> g_num_of_file_io_errors before
  \/ (g_verbose before = true ->
      printed (trace after_failed) <> printed (trace after_ok)).

(** A clock that never runs backwards. *)
Fixpoint nondecreasing (ticks : list Z) : Prop :=
  match ticks with
  | [] => True
  | t :: rest => (forall u, In u rest -> t <= u) /\ nondecreasing rest
  end.

(** The clock readings [from], [from + step], ... ([n] of them). *)
Fixpoint clock (from step : Z) (n : nat) : list Z :=
  match n with
  | O => []
  | S k => from :: clock (from + step) step k
  end.

(** Little-endian value of a byte string. *)
Fixpoint le_decode (bs : list Z) : Z :=
  match bs with
  | [] => 0
  | b :: rest => b + 256 * le_decode rest
  end.

(** ** Collaborators to run the program with *)

Module Collab.

(** Modelled from the spec: [log_append] and [log_add_to_directory] are
    declared in pacsat_log.h, which the repository does not contain.  Per
    the spec a successful append adds the frame to the working file and
    returns the new total size of the file, and a rotation moves the
    working file to a completed artifact and leaves the working path
    absent. *)
Record wod_fs : Type := WodFs {
  working_file : list sensor_telemetry_t;
  working_size : Z;
  completed : list (list sensor_telemetry_t)
}.

Definition empty_fs : wod_fs := WodFs [] 0 [].

Definition working_log_append (path : string) (f : sensor_telemetry_t)
    (len : Z) (w : wod_fs) : Z * wod_fs :=
  let w' := WodFs (working_file w ++ [f]) (working_size w + len)
                  (completed w) in
  (working_size w', w').

Definition working_log_add_to_directory (path : string) (w : wod_fs)
    : wod_fs :=
  WodFs [] 0 (completed w ++ [working_file w]).

(** A destination that cannot be written: every append returns [r] and
    leaves the file system as it is. *)
Definition broken_log_append (r : Z) (path : string)
    (f : sensor_telemetry_t) (len : Z) (w : wod_fs) : Z * wod_fs :=
  (r, w).

(** A TNC that answers every packet with the return code [rc]. *)
Definition const_send_raw_packet (rc : Z) (from to : string) (pid : Z)
    (data : payload) (len : Z) (w : wod_fs) : Z * wod_fs :=
  (rc, w).

(** The program with a 32-byte frame, a working WOD log and a working
    TNC, for the settings [cfg]. *)
Definition working_main_with (cfg : config) (verbose : bool) (t0 : Z)
    (ticks : list Z) : run_log * machine wod_fs :=
  main wod_fs 32 working_log_append working_log_add_to_directory
       (const_send_raw_packet 0) cfg "/tmp/wod" t0 ticks
       (initial_machine wod_fs verbose empty_fs).

(** The program as compiled (header settings). *)
Definition working_main : bool -> Z -> list Z -> run_log * machine wod_fs :=
  working_main_with header_config.

(** The same with a WOD destination whose appends all return [r]. *)
Definition broken_main (r : Z) (verbose : bool) (t0 : Z) (ticks : list Z)
    : run_log * machine wod_fs :=
  main wod_fs 32 (broken_log_append r) working_log_add_to_directory
       (const_send_raw_packet 0) header_config "/tmp/wod" t0 ticks
       (initial_machine wod_fs verbose empty_fs).

(** One pass through the loop body for the settings [cfg] and a TNC that
    returns [rc], with a working WOD log. *)
Definition working_iter (cfg : config) (rc : Z) (now : Z)
    (m : machine wod_fs) : iter_report * machine wod_fs :=
  main_iter wod_fs 32 working_log_append working_log_add_to_directory
       (const_send_raw_packet rc) cfg "/tmp/wod" now m.

(** One pass through the loop body as compiled, with a WOD destination
    whose appends return [r]. *)
Definition broken_iter (r : Z) (now : Z) (m : machine wod_fs)
    : iter_report * machine wod_fs :=
  main_iter wod_fs 32 (broken_log_append r) working_log_add_to_directory
       (const_send_raw_packet 0) header_config "/tmp/wod" now m.

(** The machine right after program start at time [t0]. *)
Definition started (verbose : bool) (t0 : Z) : machine wod_fs :=
  snd (main_startup wod_fs t0 (initial_machine wod_fs verbose empty_fs)).

End Collab.

(** ** Program start: lines 76-148 of [main] *)

Definition is_exit (e : event) : bool :=
  match e with EvExit _ => true | _ => false end.

Definition is_printf (e : event) : bool :=
  match e with EvPrintf _ => true | _ => false end.

(** The frame [read_sensors] leaves in [g_sensor_telemetry] when the loop
    calls it at clock reading [now]. *)
Definition sensor_frame (now : Z) : sensor_telemetry_t :=
  SensorTelemetry (to_uint32 now) 11 55 1 66 22 1.

(** The frames handed to [log_append] and the packets handed to
    [send_raw_packet], in the order of the calls. *)
Definition appended_frames (tr : list event) : list sensor_telemetry_t :=
  flat_map (fun e => match e with
                     | EvLogAppend _ f _ => [f]
                     | _ => []
                     end) tr.

(** The packets handed to [send_raw_packet], in the order of the calls:
    source, destination, PID, payload and length. *)
Definition sent_packets (tr : list event)
    : list (string * string * Z * payload * Z) :=
  flat_map (fun e => match e with
                     | EvSendRawPacket from to pid data len =>
                         [(from, to, pid, data, len)]
                     | _ => []
                     end) tr.

(** The events of one pass through the loop body, read off its report:
    [f] is the frame held before the pass. *)
Definition pass_events (path : string) (len : Z) (verbose : bool)
    (f : sensor_telemetry_t) (now : Z) (r : iter_report) : list event :=
  match stored r with
  | Some s =>
      EvLogAppend path f len
      :: (if verbose then
            [EvPrintf (if failed s then MsgCouldNotSave path
                       else MsgWroteWod path (to_int (timestamp f)))]
          else [])
      ++ (if rolled s then
            [EvDebugPrint (MsgRolling (size s)); EvLogAddToDirectory path]
          else [])
  | None => []
  end
  ++ (if sampled r then
        [EvDebugPrint (MsgSendingTelem (to_int (to_uint32 now)));
         EvSendRawPacket BROADCAST_CALLSIGN TELEM_TYPE_1_CALL PID_NO_PROTOCOL
           (PayloadFrame (sensor_frame now)) len]
      else [])
  ++ (if exited r then [EvPrintf MsgTooManyErrors; EvExit 0] else []).

(** The frame held after a pass. *)
Definition frame_after (f : sensor_telemetry_t) (now : Z) (r : iter_report)
    : sensor_telemetry_t :=
  if sampled r then sensor_frame now else f.

(** The events of a run, read off its log. *)
Fixpoint run_events (path : string) (len : Z) (verbose : bool)
    (f : sensor_telemetry_t) (log : run_log) : list event :=
  match log with
  | [] => []
  | (now, r) :: rest =>
      pass_events path len verbose f now r
      ++ run_events path len verbose (frame_after f now r) rest
  end.

(** The frame each store of a run writes: the one read at the latest
    sample of an earlier pass, [f] when there is none. *)
Fixpoint wod_frames (f : sensor_telemetry_t) (log : run_log)
    : list sensor_telemetry_t :=
  match log with
  | [] => []
  | (now, r) :: rest =>
      (if did_store r then [f] else [])
      ++ wod_frames (frame_after f now r) rest
  end.

(** The last element of a list of clock readings, [d] if there is none. *)
Definition latest (l : list Z) (d : Z) : Z := List.last l d.

(** What the program does before it enters the loop. *)
Inductive startup_event : Type :=
| StUsage                 (* the usage text of [help] *)
| StBanner                (* "Example Pacsat Telemetry Capture" *)
| StThreadCreate          (* [pthread_create] of the TNC listen thread *)
| StFatalThread           (* "FATAL. Could not start the TNC listen thread." *)
| StSleep (seconds : Z)
| StExit (code : Z).

(** [more_help], [g_verbose] and [data_folder_path]. *)
Record options : Type := Options {
  more_help : bool;
  opt_verbose : bool;
  opt_data_folder_path : string
}.

Definition initial_options : options := Options false false "/tmp".

Definition opt_char (c : Ascii.ascii) : Z := Z.of_N (Ascii.N_of_ascii c).

(** The [switch] of lines 94-107 on the value [c] that [getopt_long]
    returned, [optarg] being the option's argument. *)
Definition option_step (c : Z) (optarg : string) (o : options) : options :=
  if c =? opt_char "h"%char then
    Options true (opt_verbose o) (opt_data_folder_path o)
  else if c =? opt_char "v"%char then
    Options (more_help o) true (opt_data_folder_path o)
  else if c =? opt_char "d"%char then
    Options (more_help o) (opt_verbose o)
            (substring 0 (MAX_FILE_PATH_LEN - 1) optarg)
  else o.

(** Whether a result of [getopt_long] is the option character [c]. *)
Definition is_opt (c : Ascii.ascii) (p : Z * string) : bool :=
  fst p =? opt_char c.

(** The loop of lines 90-108; [results] are the values of [c] and [optarg]
    that the successive calls of [getopt_long] give.  The loop ends at the
    first negative [c]; the end of the list stands for it too. *)
Fixpoint parse_options (results : list (Z * string)) (o : options)
    : options :=
  match results with
  | [] => o
  | (c, optarg) :: rest =>
      if c <? 0 then o else parse_options rest (option_step c optarg o)
  end.

(** The results the option loop gets to see. *)
Fixpoint seen_options (results : list (Z * string)) : list (Z * string) :=
  match results with
  | [] => []
  | (c, optarg) :: rest =>
      if c <? 0 then [] else (c, optarg) :: seen_options rest
  end.

(** The argument of the last [-d] among [results], cut to the buffer. *)
Fixpoint last_data_folder (results : list (Z * string)) (d : string)
    : string :=
  match results with
  | [] => d
  | (c, optarg) :: rest =>
      last_data_folder rest
        (if c =? opt_char "d"%char then substring 0 (MAX_FILE_PATH_LEN - 1) optarg
         else d)
  end.

Section ProgramStart.

Variable World : Type.
Variable sizeof_sensor_telemetry : Z.
Variable log_append : string -> sensor_telemetry_t -> Z -> World -> Z * World.
Variable log_add_to_directory : string -> World -> World.
Variable send_raw_packet :
  string -> string -> Z -> payload -> Z -> World -> Z * World.
Variable cfg : config.

(** How the process ends up: it has exited before the loop, or it has run
    the loop on the WOD path [path]. *)
Inductive outcome : Type :=
| ExitedAtStart (code : Z) (pre : list startup_event)
| Ran (pre : list startup_event) (path : string) (log : run_log)
      (m : machine World).

(** [main] as a whole.  [results] is what [getopt_long] returns,
    [thread_rc] what [pthread_create] returns, [t0] and [ticks] the values
    of [time(0)].  [help] prints the usage text and exits with
    [EXIT_SUCCESS], so the [return 0] after it is never reached.  The
    registration of the signal handlers (lines 76-79) leaves no event,
    and [program] is the process that no signal interrupts. *)
Definition program (results : list (Z * string)) (thread_rc : Z) (t0 : Z)
    (ticks : list Z) (w : World) : outcome :=
  let o := parse_options results initial_options in
  if more_help o then ExitedAtStart EXIT_SUCCESS [StUsage; StExit EXIT_SUCCESS]
  else
    let path := make_wod_telem_path (opt_data_folder_path o) in
    let banner := if opt_verbose o then [StBanner] else [] in
    if thread_rc =? EXIT_SUCCESS then
      let (log, m) :=
        main World sizeof_sensor_telemetry log_append log_add_to_directory
             send_raw_packet cfg path t0 ticks
             (initial_machine World (opt_verbose o) w) in
      Ran (banner ++ [StThreadCreate; StSleep 3]) path log m
    else
      ExitedAtStart thread_rc
        (banner ++ [StThreadCreate; StFatalThread; StExit thread_rc]).

End ProgramStart.

Arguments ExitedAtStart {World}.
Arguments Ran {World}.

(** ** What the loop body computes *)

Section Facts.

Set Warnings "-notation-for-abbreviation".

Variable World : Type.
Variable sizeof_sensor_telemetry : Z.
Variable log_append : string -> sensor_telemetry_t -> Z -> World -> Z * World.
Variable log_add_to_directory : string -> World -> World.
Variable send_raw_packet :
  string -> string -> Z -> payload -> Z -> World -> Z * World.
Variable cfg : config.
Variable wod_telem_path : string.

Local Notation store_wod' :=
  (store_wod World sizeof_sensor_telemetry log_append log_add_to_directory
             cfg wod_telem_path).
Local Notation sample_telem' :=
  (sample_telem World sizeof_sensor_telemetry send_raw_packet).
Local Notation main_iter' :=
  (main_iter World sizeof_sensor_telemetry log_append log_add_to_directory
             send_raw_packet cfg wod_telem_path).
Local Notation main_loop' :=
  (main_loop World sizeof_sensor_telemetry log_append log_add_to_directory
             send_raw_packet cfg wod_telem_path).
Local Notation main' :=
  (main World sizeof_sensor_telemetry log_append log_add_to_directory
        send_raw_packet cfg wod_telem_path).

Ltac run_monad :=
  unfold store_wod, sample_telem, tlm_send_sensor_telem, tlm_send_time,
    read_sensors, signal_exit, call_log_append, call_log_add_to_directory,
    call_send_raw_packet, printf, debug_print, when, emit, set_world,
    set_g_sensor_telemetry, set_last_time_checked_wod,
    set_last_time_checked_period_to_sample_telem,
    set_g_num_of_file_io_errors, gets, bind, ret; cbn.

(** The WOD branch, written out. *)
Lemma store_wod_eq (now : Z) (m : machine World) :
  store_wod' now m =
  let rw := log_append wod_telem_path (g_sensor_telemetry m)
              sizeof_sensor_telemetry (world m) in
  let sz := to_long (fst rw) in
  let bad := long_lt_size_t sz sizeof_sensor_telemetry in
  let roll := max_wod_file_size_in_kb cfg <? c_div sz 1024 in
  (StoreReport sz bad roll,
   Machine (g_verbose m) (g_sensor_telemetry m) now
     (last_time_checked_period_to_sample_telem m)
     (if bad then g_num_of_file_io_errors m + 1
      else g_num_of_file_io_errors m)
     (if roll then log_add_to_directory wod_telem_path (snd rw) else snd rw)
     (trace m
      ++ EvLogAppend wod_telem_path (g_sensor_telemetry m)
           sizeof_sensor_telemetry
         :: (if g_verbose m then
               [EvPrintf (if bad then MsgCouldNotSave wod_telem_path
                          else MsgWroteWod wod_telem_path
                                 (to_int (timestamp
                                            (g_sensor_telemetry m))))]
             else [])
         ++ (if roll then
               [EvDebugPrint (MsgRolling sz);
                EvLogAddToDirectory wod_telem_path]
             else []))).
Proof.
  run_monad.
  destruct (log_append _ _ _ _) as [r w']; cbn.
  destruct (long_lt_size_t _ _), (g_verbose m), (_ <? c_div _ _); cbn;
    rewrite <- ?app_assoc; reflexivity.
Qed.

(** The sample branch, written out. *)
Lemma sample_telem_eq (now : Z) (m : machine World) :
  sample_telem' now m =
  let f := SensorTelemetry (to_uint32 now) 11 55 1 66 22 1 in
  (tt,
   Machine (g_verbose m) f (last_time_checked_wod m) now
     (g_num_of_file_io_errors m)
     (snd (send_raw_packet BROADCAST_CALLSIGN TELEM_TYPE_1_CALL
             PID_NO_PROTOCOL (PayloadFrame f) sizeof_sensor_telemetry
             (world m)))
     (trace m
      ++ [EvDebugPrint (MsgSendingTelem (to_int (to_uint32 now)));
          EvSendRawPacket BROADCAST_CALLSIGN TELEM_TYPE_1_CALL
            PID_NO_PROTOCOL (PayloadFrame f) sizeof_sensor_telemetry])).
Proof.
  run_monad.
  destruct (send_raw_packet _ _ _ _ _ _) as [rc w']; cbn.
  rewrite <- app_assoc; reflexivity.
Qed.


(** The loop body, written out: the WOD branch runs when [store_due], then
    the sample branch when [sample_due], then the error check. *)
Lemma main_iter_eq (now : Z) (m : machine World) :
  main_iter' now m =
  let sd := store_due cfg now (last_time_checked_wod m) in
  let p := if sd then (let (s, m1) := store_wod' now m in (Some s, m1))
           else (None, m) in
  let sa := sample_due cfg now (last_time_checked_period_to_sample_telem m) in
  let m2 := if sa then snd (sample_telem' now (snd p)) else snd p in
  let ex := max_number_file_io_errors cfg <? g_num_of_file_io_errors m2 in
  (IterReport (fst p) sa ex,
   if ex then
     Machine (g_verbose m2) (g_sensor_telemetry m2) (last_time_checked_wod m2)
       (last_time_checked_period_to_sample_telem m2)
       (g_num_of_file_io_errors m2) (world m2)
       (trace m2 ++ [EvPrintf MsgTooManyErrors; EvExit 0])
   else m2).
Proof.
  cbv zeta. rewrite store_wod_eq. unfold store_due, sample_due.
  unfold main_iter. run_monad.
  destruct (0 <? period_to_sample_telem_in_seconds cfg); cbn;
  destruct (0 <? period_to_store_wod_in_seconds cfg); cbn;
  destruct (period_to_store_wod_in_seconds cfg
            <? now - last_time_checked_wod m); cbn;
  try (destruct (log_append _ _ _ _) as [r w']; cbn);
  try (destruct (long_lt_size_t _ _); cbn);
  destruct (g_verbose m) eqn:Hv; cbn;
  try (destruct (max_wod_file_size_in_kb cfg <? _); cbn);
  try (destruct (period_to_sample_telem_in_seconds cfg <? now - _); cbn);
  try (destruct (send_raw_packet _ _ _ _ _ _) as [rc w'']; cbn);
  try (destruct (max_number_file_io_errors cfg <? _); cbn);
  rewrite ?andb_false_r; cbn; rewrite ?Hv;
  rewrite <- ?app_assoc; reflexivity.
Qed.

Ltac iter_cases H :=
  rewrite main_iter_eq in H; cbv zeta in H;
  rewrite ?store_wod_eq, ?sample_telem_eq in H; cbv zeta in H;
  repeat match type of H with
         | context [store_due ?c ?n ?l] => destruct (store_due c n l) eqn:?
         | context [sample_due ?c ?n ?l] => destruct (sample_due c n l) eqn:?
         end;
  cbn [fst snd] in H;
  rewrite ?store_wod_eq, ?sample_telem_eq in H; cbv zeta in H;
  cbn [fst snd g_num_of_file_io_errors last_time_checked_wod
       last_time_checked_period_to_sample_telem g_verbose trace world
       g_sensor_telemetry] in H;
  match type of H with
  | context [max_number_file_io_errors ?c <? ?n] =>
      destruct (max_number_file_io_errors c <? n) eqn:?
  end;
  injection H as <- <-;
  cbn [fst snd g_num_of_file_io_errors last_time_checked_wod
       last_time_checked_period_to_sample_telem g_verbose trace world
       g_sensor_telemetry stored sampled exited did_store did_fail did_roll
       size failed rolled] in *.

Lemma iter_sampled now m r m' :
  main_iter' now m = (r, m') ->
  sampled r = sample_due cfg now (last_time_checked_period_to_sample_telem m).
Proof. intros H. iter_cases H; reflexivity. Qed.

Lemma iter_did_store now m r m' :
  main_iter' now m = (r, m') ->
  did_store r = store_due cfg now (last_time_checked_wod m).
Proof. intros H. iter_cases H; reflexivity. Qed.

Lemma iter_exited now m r m' :
  main_iter' now m = (r, m') ->
  exited r = (max_number_file_io_errors cfg <? g_num_of_file_io_errors m').
Proof. intros H. iter_cases H; auto. Qed.

Lemma iter_errors now m r m' :
  main_iter' now m = (r, m') ->
  g_num_of_file_io_errors m'
  = g_num_of_file_io_errors m + (if did_fail r then 1 else 0).
Proof.
  intros H. iter_cases H;
    try match goal with |- context [if ?c then _ else _] => destruct c end;
    lia.
Qed.

Lemma iter_last_sample now m r m' :
  main_iter' now m = (r, m') ->
  last_time_checked_period_to_sample_telem m'
  = if sampled r then now else last_time_checked_period_to_sample_telem m.
Proof. intros H. iter_cases H; reflexivity. Qed.

Lemma iter_last_wod now m r m' :
  main_iter' now m = (r, m') ->
  last_time_checked_wod m'
  = if did_store r then now else last_time_checked_wod m.
Proof. intros H. iter_cases H; reflexivity. Qed.

Lemma iter_verbose now m r m' :
  main_iter' now m = (r, m') -> g_verbose m' = g_verbose m.
Proof. intros H. iter_cases H; reflexivity. Qed.

(** What a store pass reports about the value [log_append] returned. *)
Lemma iter_stored now m r m' s :
  main_iter' now m = (r, m') ->
  stored r = Some s ->
  size s = to_long (fst (log_append wod_telem_path (g_sensor_telemetry m)
                           sizeof_sensor_telemetry (world m)))
  /\ failed s = long_lt_size_t (size s) sizeof_sensor_telemetry
  /\ rolled s = (max_wod_file_size_in_kb cfg <? c_div (size s) 1024).
Proof.
  intros H Hs. iter_cases H; try discriminate;
    injection Hs as <-; cbn; auto.
Qed.

(** The events of one pass, in the order they happen. *)
Lemma iter_trace now m r m' :
  main_iter' now m = (r, m') ->
  trace m' =
  trace m
  ++ match stored r with
     | Some s =>
         EvLogAppend wod_telem_path (g_sensor_telemetry m)
           sizeof_sensor_telemetry
         :: (if g_verbose m then
               [EvPrintf (if failed s then MsgCouldNotSave wod_telem_path
                          else MsgWroteWod wod_telem_path
                                 (to_int (timestamp
                                            (g_sensor_telemetry m))))]
             else [])
         ++ (if rolled s then
               [EvDebugPrint (MsgRolling (size s));
                EvLogAddToDirectory wod_telem_path]
             else [])
     | None => []
     end
  ++ (if sampled r then
        [EvDebugPrint (MsgSendingTelem (to_int (to_uint32 now)));
         EvSendRawPacket BROADCAST_CALLSIGN TELEM_TYPE_1_CALL PID_NO_PROTOCOL
           (PayloadFrame (SensorTelemetry (to_uint32 now) 11 55 1 66 22 1))
           sizeof_sensor_telemetry]
      else [])
  ++ (if exited r then [EvPrintf MsgTooManyErrors; EvExit 0] else []).
Proof.
  intros H. iter_cases H; cbn [app];
    rewrite <- ?app_assoc; cbn [app]; rewrite ?app_nil_r;
    rewrite <- ?app_assoc; reflexivity.
Qed.


(** ** The loop *)

Lemma main_loop_cons now rest m :
  main_loop' (now :: rest) m =
  let (r, m1) := main_iter' now m in
  if exited r then ([(now, r)], m1)
  else let (log, m2) := main_loop' rest m1 in ((now, r) :: log, m2).
Proof.
  cbn [main_loop]. unfold bind at 1.
  destruct (main_iter' now m) as [r m1].
  destruct (exited r); [reflexivity|].
  unfold bind at 1. destruct (main_loop' rest m1); reflexivity.
Qed.

Lemma main_eq t0 ticks m :
  main' t0 ticks m =
  main_loop' ticks
    (Machine (g_verbose m) (g_sensor_telemetry m) t0
       (last_time_checked_period_to_sample_telem m)
       (g_num_of_file_io_errors m) (world m) (trace m)).
Proof. reflexivity. Qed.

(** Unfolds one pass of the loop in [H : main_loop' (now :: rest) m = _]. *)
Ltac loop_step H r m1 Hit :=
  rewrite main_loop_cons in H;
  match type of H with
  | context [main_iter ?W ?F ?la ?ld ?sp ?c ?p ?now ?m] =>
      destruct (main_iter W F la ld sp c p now m) as [r m1] eqn:Hit
  end.

(** Every pass of a run was made at one of the clock readings. *)
Lemma main_loop_ticks ticks :
  forall m log m',
    main_loop' ticks m = (log, m') ->
    forall e, In e log -> In (fst e) ticks.
Proof.
  induction ticks as [|now rest IH]; intros m log m' H e He.
  - injection H as <- <-. destruct He.
  - loop_step H r m1 Hit.
    destruct (exited r).
    + injection H as <- <-. destruct He as [<-|[]]. left. reflexivity.
    + destruct (main_loop' rest m1) as [log1 m2] eqn:Hl.
      injection H as <- <-. destruct He as [<-|He].
      * left. reflexivity.
      * right. eapply IH; eauto.
Qed.

(** The failure counter counts the failed appends, the loop stops in the
    pass in which the counter first exceeds the maximum, and until then
    every clock reading gets its pass. *)
Lemma main_loop_errors ticks :
  forall m log m',
    main_loop' ticks m = (log, m') ->
    g_num_of_file_io_errors m <= max_number_file_io_errors cfg ->
    g_num_of_file_io_errors m'
    = g_num_of_file_io_errors m + Z.of_nat (count_failed log)
    /\ (has_exited log = true
        <-> max_number_file_io_errors cfg < g_num_of_file_io_errors m')
    /\ g_num_of_file_io_errors m' <= max_number_file_io_errors cfg + 1
    /\ (has_exited log = false -> map fst log = ticks).
Proof.
  induction ticks as [|now rest IH]; intros m log m' H Hle.
  - injection H as <- <-. cbn. repeat split; try lia; try discriminate.
  - loop_step H r m1 Hit.
    pose proof (iter_errors _ _ _ _ Hit) as He.
    pose proof (iter_exited _ _ _ _ Hit) as Hx.
    destruct (exited r) eqn:Hex.
    + injection H as <- <-. symmetry in Hx. apply Z.ltb_lt in Hx.
      unfold count_failed, has_exited. cbn. rewrite Hex. cbn.
      destruct (did_fail r); cbn [List.length]; repeat split; intros;
        try lia; try discriminate.
    + symmetry in Hx. apply Z.ltb_ge in Hx.
      destruct (main_loop' rest m1) as [log1 m2] eqn:Hl.
      injection H as <- <-.
      destruct (IH _ _ _ Hl Hx) as (E1 & E2 & E3 & E4).
      unfold count_failed, has_exited in *. cbn. rewrite Hex. cbn.
      repeat split.
      * destruct (did_fail r); cbn [List.length]; lia.
      * apply E2.
      * apply E2.
      * exact E3.
      * intros Hn. f_equal. apply E4, Hn.
Qed.

(** A sample fires only when the clock is more than the period past the
    last-sample timestamp the loop was entered with. *)
Lemma main_loop_sampled_after ticks :
  forall m log m',
    main_loop' ticks m = (log, m') ->
    forall t r, In (t, r) log -> sampled r = true ->
    period_to_sample_telem_in_seconds cfg
    < t - last_time_checked_period_to_sample_telem m.
Proof.
  induction ticks as [|now rest IH]; intros m log m' H t r Hin Hs.
  - injection H as <- <-. destruct Hin.
  - loop_step H r0 m1 Hit.
    pose proof (iter_sampled _ _ _ _ Hit) as Hsd.
    pose proof (iter_last_sample _ _ _ _ Hit) as Hls.
    assert (Hhead : sampled r0 = true ->
                    0 < period_to_sample_telem_in_seconds cfg
                    /\ period_to_sample_telem_in_seconds cfg
                       < now - last_time_checked_period_to_sample_telem m).
    { intros E. rewrite E in Hsd. symmetry in Hsd. unfold sample_due in Hsd.
      apply andb_true_iff in Hsd. destruct Hsd as [A B].
      apply Z.ltb_lt in A. apply Z.ltb_lt in B. auto. }
    destruct (exited r0).
    + injection H as <- <-. destruct Hin as [E|[]]. injection E as <- <-.
      apply Hhead, Hs.
    + destruct (main_loop' rest m1) as [log1 m2] eqn:Hl.
      injection H as <- <-. destruct Hin as [E|Hin].
      * injection E as <- <-. apply Hhead, Hs.
      * specialize (IH _ _ _ Hl _ _ Hin Hs). rewrite Hls in IH.
        destruct (sampled r0); [|exact IH].
        destruct (Hhead eq_refl). lia.
Qed.

(** The same for the WOD branch. *)
Lemma main_loop_stored_after ticks :
  forall m log m',
    main_loop' ticks m = (log, m') ->
    forall t r, In (t, r) log -> did_store r = true ->
    period_to_store_wod_in_seconds cfg < t - last_time_checked_wod m.
Proof.
  induction ticks as [|now rest IH]; intros m log m' H t r Hin Hs.
  - injection H as <- <-. destruct Hin.
  - loop_step H r0 m1 Hit.
    pose proof (iter_did_store _ _ _ _ Hit) as Hsd.
    pose proof (iter_last_wod _ _ _ _ Hit) as Hls.
    assert (Hhead : did_store r0 = true ->
                    0 < period_to_store_wod_in_seconds cfg
                    /\ period_to_store_wod_in_seconds cfg
                       < now - last_time_checked_wod m).
    { intros E. rewrite E in Hsd. symmetry in Hsd. unfold store_due in Hsd.
      apply andb_true_iff in Hsd. destruct Hsd as [A B].
      apply andb_true_iff in A. destruct A as [_ A].
      apply Z.ltb_lt in A. apply Z.ltb_lt in B. auto. }
    destruct (exited r0).
    + injection H as <- <-. destruct Hin as [E|[]]. injection E as <- <-.
      apply Hhead, Hs.
    + destruct (main_loop' rest m1) as [log1 m2] eqn:Hl.
      injection H as <- <-. destruct Hin as [E|Hin].
      * injection E as <- <-. apply Hhead, Hs.
      * specialize (IH _ _ _ Hl _ _ Hin Hs). rewrite Hls in IH.
        destruct (did_store r0); [|exact IH].
        destruct (Hhead eq_refl). lia.
Qed.

(** Two sample actions of one run are more than the period apart. *)
Lemma main_loop_no_double_fire ticks :
  forall m log m',
    main_loop' ticks m = (log, m') ->
    forall pre t1 r1 mid t2 r2 post,
      log = pre ++ (t1, r1) :: mid ++ (t2, r2) :: post ->
      sampled r1 = true -> sampled r2 = true ->
      period_to_sample_telem_in_seconds cfg < t2 - t1.
Proof.
  induction ticks as [|now rest IH];
    intros m log m' H pre t1 r1 mid t2 r2 post Hlog H1 H2.
  - injection H as <- <-. destruct pre; discriminate.
  - loop_step H r0 m1 Hit.
    pose proof (iter_last_sample _ _ _ _ Hit) as Hls.
    destruct (exited r0).
    + injection H as <- <-.
      destruct pre as [|x [|y pre]]; try discriminate;
        injection Hlog as _ Hlog; destruct mid; discriminate.
    + destruct (main_loop' rest m1) as [log1 m2] eqn:Hl.
      injection H as <- <-.
      destruct pre as [|x pre]; cbn in Hlog.
      * injection Hlog as E1 E2 E3. subst now r0 log1.
        rewrite H1 in Hls. rewrite <- Hls.
        apply (main_loop_sampled_after _ _ _ _ Hl t2 r2); [|exact H2].
        apply in_or_app. right. left. reflexivity.
      * injection Hlog as _ Hlog.
        exact (IH _ _ _ Hl _ _ _ _ _ _ _ Hlog H1 H2).
Qed.

(** With a clock that never runs backwards, at every pass either a sample
    has fired at most one period ago, or none has fired yet and the clock
    is at most one period past the initial last-sample timestamp. *)
Lemma main_loop_no_starvation ticks :
  forall m log m',
    main_loop' ticks m = (log, m') ->
    0 < period_to_sample_telem_in_seconds cfg ->
    nondecreasing ticks ->
    forall pre t r post,
      log = pre ++ (t, r) :: post ->
      (exists u ru, In (u, ru) (pre ++ [(t, r)]) /\ sampled ru = true
                    /\ t - period_to_sample_telem_in_seconds cfg <= u <= t)
      \/ t - last_time_checked_period_to_sample_telem m
         <= period_to_sample_telem_in_seconds cfg.
Proof.
  induction ticks as [|now rest IH];
    intros m log m' H HP Hmono pre t r post Hlog.
  - injection H as <- <-. destruct pre; discriminate.
  - loop_step H r0 m1 Hit.
    pose proof (iter_sampled _ _ _ _ Hit) as Hsd.
    pose proof (iter_last_sample _ _ _ _ Hit) as Hls.
    assert (Hhead : (exists u ru, In (u, ru) [(now, r0)] /\ sampled ru = true
                       /\ now - period_to_sample_telem_in_seconds cfg
                          <= u <= now)
                    \/ now - last_time_checked_period_to_sample_telem m
                       <= period_to_sample_telem_in_seconds cfg).
    { destruct (sampled r0) eqn:E.
      - left. exists now, r0. repeat split; [left; reflexivity|exact E|lia|lia].
      - right. symmetry in Hsd. unfold sample_due in Hsd.
        apply andb_false_iff in Hsd. destruct Hsd as [A|A].
        + apply Z.ltb_ge in A. lia.
        + apply Z.ltb_ge in A. exact A. }
    destruct Hmono as [Hfirst Hmono].
    destruct (exited r0).
    + injection H as <- <-.
      destruct pre as [|x [|y pre]]; try discriminate.
      injection Hlog as <- <- _. exact Hhead.
    + destruct (main_loop' rest m1) as [log1 m2] eqn:Hl.
      pose proof (main_loop_ticks _ _ _ _ Hl) as Hticks.
      injection H as <- <-.
      destruct pre as [|x pre]; cbn in Hlog.
      * injection Hlog as <- <- _. exact Hhead.
      * injection Hlog as <- Hlog.
        destruct (IH _ _ _ Hl HP Hmono _ _ _ _ Hlog)
          as [(u & ru & Hin & Hs & Hr)|Hlate].
        -- left. exists u, ru. repeat split; try tauto. right. exact Hin.
        -- rewrite Hls in Hlate. destruct (sampled r0) eqn:E.
           ++ left. exists now, r0.
              assert (now <= t).
              { apply Hfirst.
                apply (Hticks (t, r)). rewrite Hlog.
                apply in_or_app. right. left. reflexivity. }
              repeat split; [left; reflexivity|exact E|lia|lia].
           ++ right. exact Hlate.
Qed.


(** ** The failure test of line 160 *)

Lemma to_long_id z : in_long z -> to_long z = z.
Proof.
  unfold in_long, to_long. intros H.
  rewrite Z.mod_small by lia. lia.
Qed.

Lemma to_long_range z : in_long (to_long z).
Proof.
  unfold in_long, to_long.
  pose proof (Z.mod_pos_bound (z + 2 ^ 63) (2 ^ 64) ltac:(lia)). lia.
Qed.

(** A non-negative size below the frame size takes the error branch. *)
Lemma short_write_detected sz :
  0 <= sz < sizeof_sensor_telemetry -> sizeof_sensor_telemetry < 2 ^ 64 ->
  long_lt_size_t sz sizeof_sensor_telemetry = true.
Proof.
  intros H HF. unfold long_lt_size_t, to_unsigned_long.
  rewrite !Z.mod_small by lia. apply Z.ltb_lt. lia.
Qed.

(** A negative size does not: converted to [size_t] it is at least
    [2 ^ 63]. *)
Lemma negative_size_not_detected sz :
  in_long sz -> sz < 0 -> 0 <= sizeof_sensor_telemetry <= 2 ^ 63 ->
  long_lt_size_t sz sizeof_sensor_telemetry = false.
Proof.
  unfold in_long, long_lt_size_t, to_unsigned_long. intros H Hn HF.
  apply Z.ltb_ge.
  rewrite (Z.mod_small sizeof_sensor_telemetry) by lia.
  replace sz with (sz + 2 ^ 64 - 1 * 2 ^ 64) by lia.
  rewrite Zminus_mod, Z_mod_mult, Z.sub_0_r, Z.mod_mod by lia.
  rewrite Z.mod_small by lia. lia.
Qed.

(** A size at least the frame size does not either. *)
Lemma full_write_accepted sz :
  in_long sz -> 0 <= sizeof_sensor_telemetry <= sz ->
  long_lt_size_t sz sizeof_sensor_telemetry = false.
Proof.
  unfold in_long, long_lt_size_t, to_unsigned_long. intros H HF.
  apply Z.ltb_ge. rewrite !Z.mod_small by lia. lia.
Qed.

(** The roll test of line 170, for a non-negative maximum. *)
Lemma roll_test_iff sz :
  0 <= max_wod_file_size_in_kb cfg ->
  ((max_wod_file_size_in_kb cfg <? c_div sz 1024) = true
   <-> (max_wod_file_size_in_kb cfg + 1) * 1024 <= sz).
Proof.
  intros HK. unfold c_div. rewrite Z.ltb_lt. split; intros H.
  - destruct (Z_lt_le_dec sz 0) as [Hneg|Hpos].
    + pose proof (Z.quot_le_mono sz 0 1024 ltac:(lia) ltac:(lia)).
      rewrite Z.quot_0_l in H0 by lia. lia.
    + rewrite Z.quot_div_nonneg in H by lia.
      pose proof (Z.div_mod sz 1024 ltac:(lia)).
      pose proof (Z.mod_pos_bound sz 1024 ltac:(lia)). nia.
  - assert (0 <= sz) by lia. rewrite Z.quot_div_nonneg by lia.
    assert (max_wod_file_size_in_kb cfg + 1 <= sz / 1024); [|lia].
    apply Z.div_le_lower_bound; lia.
Qed.

(** Clock readings are seconds since the epoch, so the differences the
    loop takes of them are exact in [time_t]. *)
Lemma time_difference_exact now last :
  0 <= now < 2 ^ 63 -> 0 <= last < 2 ^ 63 ->
  to_long (now - last) = now - last.
Proof. intros H1 H2. apply to_long_id. unfold in_long. lia. Qed.

(** Which returns of [log_append] a store pass counts as failures. *)
Lemma iter_counts_failure now m r m' s :
  main_iter' now m = (r, m') ->
  stored r = Some s ->
  0 <= sizeof_sensor_telemetry <= 2 ^ 63 ->
  (0 <= size s < sizeof_sensor_telemetry ->
   g_num_of_file_io_errors m' = g_num_of_file_io_errors m + 1)
  /\ (size s < 0 -> g_num_of_file_io_errors m' = g_num_of_file_io_errors m)
  /\ (sizeof_sensor_telemetry <= size s ->
      g_num_of_file_io_errors m' = g_num_of_file_io_errors m).
Proof.
  intros Hit Hs HF.
  destruct (iter_stored _ _ _ _ _ Hit Hs) as (A & B & _).
  assert (Hr : in_long (size s)) by (rewrite A; apply to_long_range).
  rewrite (iter_errors _ _ _ _ Hit). unfold did_fail. rewrite Hs, B.
  repeat split; intros H.
  - rewrite short_write_detected by lia. reflexivity.
  - rewrite negative_size_not_detected by (auto; lia). lia.
  - rewrite full_write_accepted by (auto; lia). lia.
Qed.

(** ** The claims that hold for every collaborator *)

(** C1 (amended).  With both periods positive, a pass of the loop body
    takes the sample action exactly when [now - last > P] for the sample
    period and the store action exactly when [now - last > P] for the WOD
    period, [last] being the matching last-event timestamp: an action
    becomes due only once more than [P] seconds have passed. *)
Theorem C1_due_iff_period_exceeded (now : Z) (m : machine World) :
  0 < period_to_sample_telem_in_seconds cfg ->
  0 < period_to_store_wod_in_seconds cfg ->
  let r := fst (main_iter' now m) in
  (sample_due cfg now (last_time_checked_period_to_sample_telem m) = true
   <-> now - last_time_checked_period_to_sample_telem m
       > period_to_sample_telem_in_seconds cfg)
  /\ (store_due cfg now (last_time_checked_wod m) = true
      <-> now - last_time_checked_wod m > period_to_store_wod_in_seconds cfg)
  /\ sampled r = sample_due cfg now (last_time_checked_period_to_sample_telem m)
  /\ did_store r = store_due cfg now (last_time_checked_wod m).
Proof.
  intros HS HW r.
  destruct (main_iter' now m) as [r0 m'] eqn:Hit. subst r. cbn [fst].
  split; [|split; [|split]].
  - unfold sample_due. rewrite andb_true_iff, !Z.ltb_lt. lia.
  - unfold store_due. rewrite !andb_true_iff, !Z.ltb_lt. lia.
  - exact (iter_sampled _ _ _ _ Hit).
  - exact (iter_did_store _ _ _ _ Hit).
Qed.

(** X19.  In every pass the loop exits exactly when the failure counter is
    above [MAX_NUMBER_FILE_IO_ERRORS] at the end of the pass.  In a run
    from program start the counter equals the number of appends that took
    the error branch of line 160; the loop has exited exactly when that
    number is the maximum plus one, and as long as it is at most the
    maximum the loop has made a pass for every clock reading.  An append
    whose return line 160 does not take for a failure, a negative one for
    instance, is not among the appends counted. *)
Theorem exit_iff_counted_errors_exceed_maximum
    (t0 : Z) (ticks : list Z) (verbose : bool) (w : World) :
  0 <= max_number_file_io_errors cfg ->
  let log := fst (main' t0 ticks (initial_machine World verbose w)) in
  let m' := snd (main' t0 ticks (initial_machine World verbose w)) in
  (forall now m,
      exited (fst (main_iter' now m)) = true
      <-> g_num_of_file_io_errors (snd (main_iter' now m))
          > max_number_file_io_errors cfg)
  /\ g_num_of_file_io_errors m' = Z.of_nat (count_failed log)
  /\ (has_exited log = true
      <-> Z.of_nat (count_failed log) = max_number_file_io_errors cfg + 1)
  /\ (has_exited log = false
      <-> Z.of_nat (count_failed log) <= max_number_file_io_errors cfg)
  /\ (has_exited log = false -> map fst log = ticks).
Proof.
  intros HM log m'. split.
  - intros now m. destruct (main_iter' now m) as [r m1] eqn:Hit. cbn [fst snd].
    rewrite (iter_exited _ _ _ _ Hit), Z.ltb_lt. lia.
  - subst log m'. rewrite main_eq.
    match goal with |- context [main_loop' ticks ?x] =>
      destruct (main_loop' ticks x) as [log m'] eqn:Hl end.
    cbn [fst snd].
    destruct (main_loop_errors _ _ _ _ Hl) as (E1 & E2 & E3 & E4);
      [cbn; exact HM|].
    cbn [g_num_of_file_io_errors] in E1. rewrite Z.add_0_l in E1.
    rewrite E1 in E2, E3.
    repeat split; try assumption; intros.
    + apply E2 in H. lia.
    + apply E2. lia.
    + destruct (has_exited log); [|lia]. destruct E2 as [E2 _].
      specialize (E2 eq_refl). discriminate.
    + destruct (has_exited log) eqn:E; [|reflexivity].
      destruct E2 as [E2 _]. specialize (E2 eq_refl). lia.
Qed.

(** C5.  For a frame no larger than the roll threshold, a pass of the
    loop body calls [log_add_to_directory] exactly when it has appended,
    the append was successful (the size returned is at least the frame
    size, the error branch was not taken) and [size / 1024] exceeds
    [MAX_WOD_FILE_SIZE_IN_KB] under truncating division.  So no size below
    [(MAX_WOD_FILE_SIZE_IN_KB + 1) * 1024] rolls the file, and in the
    trace of the pass the roll, if any, is the single one and comes after
    the append has returned. *)
Theorem C5_roll_iff_successful_append_over_threshold
    (now : Z) (m : machine World) :
  0 <= max_wod_file_size_in_kb cfg ->
  0 < sizeof_sensor_telemetry <= (max_wod_file_size_in_kb cfg + 1) * 1024 ->
  let r := fst (main_iter' now m) in
  let m' := snd (main_iter' now m) in
  (did_roll r = true
   <-> exists s, stored r = Some s /\ failed s = false
                 /\ sizeof_sensor_telemetry <= size s
                 /\ c_div (size s) 1024 > max_wod_file_size_in_kb cfg)
  /\ (forall s, stored r = Some s ->
        size s < (max_wod_file_size_in_kb cfg + 1) * 1024 ->
        rolled s = false)
  /\ exists evs,
       trace m' = trace m ++ evs
       /\ count_events is_log_add_to_directory evs
          = (if did_roll r then 1%nat else 0%nat)
       /\ roll_only_after_append false evs = true.
Proof.
  intros HK HF r m'. subst r m'.
  destruct (main_iter' now m) as [r m'] eqn:Hit. cbn [fst snd].
  assert (Hroll : forall s, stored r = Some s ->
            (rolled s = true
             <-> (max_wod_file_size_in_kb cfg + 1) * 1024 <= size s)
            /\ in_long (size s)
            /\ failed s = long_lt_size_t (size s) sizeof_sensor_telemetry).
  { intros s Hs. destruct (iter_stored _ _ _ _ _ Hit Hs) as (A & B & C).
    split; [|split].
    - rewrite C. apply roll_test_iff, HK.
    - rewrite A. apply to_long_range.
    - exact B. }
  split; [|split].
  - unfold did_roll. destruct (stored r) as [s|] eqn:Hs.
    + destruct (Hroll s eq_refl) as (A & B & C). split.
      * intros Hr. exists s. apply A in Hr. repeat split.
        -- rewrite C. apply full_write_accepted; [exact B|lia].
        -- lia.
        -- apply Z.lt_gt. apply Z.ltb_lt.
           apply roll_test_iff; [exact HK|exact Hr].
      * intros (s' & E & _ & _ & Hq). injection E as <-.
        apply A. apply roll_test_iff; [exact HK|]. apply Z.ltb_lt. lia.
    + split; [discriminate|]. intros (s' & E & _). discriminate.
  - intros s Hs Hlt. destruct (Hroll s Hs) as (A & _).
    destruct (rolled s); [|reflexivity].
    destruct A as [A _]. specialize (A eq_refl). lia.
  - eexists. split; [exact (iter_trace _ _ _ _ Hit)|].
    unfold did_roll, count_events.
    destruct (stored r) as [s|]; [destruct (rolled s), (failed s)|];
      destruct (g_verbose m), (sampled r), (exited r);
      split; reflexivity.
Qed.

(** C6 (amended).  The sample check is switched off by its own period
    alone; the store check is switched off by its own period or by the
    sample period being zero or negative, because it is nested in the
    sample period's guard.  When the sample period is zero or negative no
    pass stores or samples, whatever the store period; when both periods
    are positive the store decision looks at the last-store timestamp
    only and the sample decision at the last-sample timestamp only. *)
Theorem C6_store_check_nested_in_sample_guard
    (t0 : Z) (ticks : list Z) (verbose : bool) (w : World) :
  (forall now m,
     let r := fst (main_iter' now m) in
     (sampled r = true
      <-> 0 < period_to_sample_telem_in_seconds cfg
          /\ period_to_sample_telem_in_seconds cfg
             < now - last_time_checked_period_to_sample_telem m)
     /\ (did_store r = true
         <-> 0 < period_to_sample_telem_in_seconds cfg
             /\ 0 < period_to_store_wod_in_seconds cfg
             /\ period_to_store_wod_in_seconds cfg
                < now - last_time_checked_wod m))
  /\ (period_to_sample_telem_in_seconds cfg <= 0 ->
      let log := fst (main' t0 ticks (initial_machine World verbose w)) in
      count_stored log = 0%nat /\ count_sampled log = 0%nat).
Proof.
  assert (Hiter : forall now m r m1, main_iter' now m = (r, m1) ->
     (sampled r = true
      <-> 0 < period_to_sample_telem_in_seconds cfg
          /\ period_to_sample_telem_in_seconds cfg
             < now - last_time_checked_period_to_sample_telem m)
     /\ (did_store r = true
         <-> 0 < period_to_sample_telem_in_seconds cfg
             /\ 0 < period_to_store_wod_in_seconds cfg
             /\ period_to_store_wod_in_seconds cfg
                < now - last_time_checked_wod m)).
  { intros now m r m1 Hit.
    rewrite (iter_sampled _ _ _ _ Hit), (iter_did_store _ _ _ _ Hit).
    unfold sample_due, store_due.
    rewrite !andb_true_iff, !Z.ltb_lt. tauto. }
  split.
  - intros now m. destruct (main_iter' now m) as [r m1] eqn:Hit.
    cbn [fst]. exact (Hiter _ _ _ _ Hit).
  - intros HP log. subst log. rewrite main_eq.
    match goal with |- context [main_loop' ticks ?x] => generalize x end.
    induction ticks as [|now rest IH]; intros m.
    + cbn. auto.
    + rewrite main_loop_cons.
      destruct (main_iter' now m) as [r m1] eqn:Hit.
      destruct (Hiter _ _ _ _ Hit) as [A B].
      assert (Hs : sampled r = false).
      { destruct (sampled r); [|reflexivity].
        destruct A as [A _]. specialize (A eq_refl). lia. }
      assert (Hd : did_store r = false).
      { destruct (did_store r); [|reflexivity].
        destruct B as [B _]. specialize (B eq_refl). lia. }
      destruct (exited r) eqn:Hex.
      * unfold count_stored, count_sampled. cbn. rewrite Hs, Hd. cbn. auto.
      * specialize (IH m1). destruct (main_loop' rest m1) as [log1 m2].
        cbn [fst] in *. unfold count_stored, count_sampled in *. cbn.
        rewrite Hs, Hd. exact IH.
Qed.

(** C7 (amended).  For a positive sample period and a run from program
    start driven by a clock that never runs backwards: two sample actions
    are always more than the period apart, so no interval of length at
    most the period holds two of them; and at every pass made at a clock
    reading [t] beyond the period a sample action has fired at a reading
    in [[t - P, t]], so the interval of length [P] that ends at a pass
    holds a sample action. *)
Theorem C7_sample_spacing
    (t0 : Z) (ticks : list Z) (verbose : bool) (w : World) :
  0 < period_to_sample_telem_in_seconds cfg ->
  nondecreasing ticks ->
  let log := fst (main' t0 ticks (initial_machine World verbose w)) in
  (forall pre t1 r1 mid t2 r2 post,
      log = pre ++ (t1, r1) :: mid ++ (t2, r2) :: post ->
      sampled r1 = true -> sampled r2 = true ->
      period_to_sample_telem_in_seconds cfg < t2 - t1)
  /\ (forall pre t r post,
        log = pre ++ (t, r) :: post ->
        period_to_sample_telem_in_seconds cfg < t ->
        exists u ru,
          In (u, ru) (pre ++ [(t, r)]) /\ sampled ru = true
          /\ t - period_to_sample_telem_in_seconds cfg <= u <= t).
Proof.
  intros HP Hmono log. subst log. rewrite main_eq.
  match goal with |- context [main_loop' ticks ?x] =>
    destruct (main_loop' ticks x) as [log m'] eqn:Hl end.
  cbn [fst]. split.
  - intros pre t1 r1 mid t2 r2 post Hlog H1 H2.
    exact (main_loop_no_double_fire _ _ _ _ Hl _ _ _ _ _ _ _ Hlog H1 H2).
  - intros pre t r post Hlog Ht.
    destruct (main_loop_no_starvation _ _ _ _ Hl HP Hmono _ _ _ _ Hlog)
      as [Hex|Hlate]; [exact Hex|].
    cbn in Hlate. lia.
Qed.

Lemma land_255 x : Z.land x 255 = x mod 2 ^ 8.
Proof. change 255 with (Z.ones 8). apply Z.land_ones. lia. Qed.

Lemma le_bytes_mod x :
  x mod 2 ^ 8 + 256 * ((x / 2 ^ 8) mod 2 ^ 8
    + 256 * ((x / 2 ^ 16) mod 2 ^ 8
    + 256 * ((x / 2 ^ 24) mod 2 ^ 8 + 256 * 0)))
  = x mod 2 ^ 32.
Proof.
  change (2 ^ 32) with (2 ^ 8 * (2 ^ 8 * (2 ^ 8 * 2 ^ 8))).
  rewrite !Z.rem_mul_r by lia.
  change (2 ^ 16) with (2 ^ 8 * 2 ^ 8).
  change (2 ^ 24) with (2 ^ 8 * 2 ^ 8 * 2 ^ 8).
  rewrite <- !Z.div_div by lia.
  change (2 ^ 8) with 256. lia.
Qed.

(** C9.  [tlm_send_time] makes exactly one call of [send_raw_packet] and
    nothing else observable: from "AMSAT-11" to "TIME-1" with PID 0xF0 and
    a payload of four bytes, byte [i] being bits [8i .. 8i+7] of the
    current time, least significant byte first; the payload decodes
    (little-endian) to the time modulo [2 ^ 32], which is the time itself
    when it fits 32 bits.  It returns what [send_raw_packet] returns. *)
Theorem C9_tlm_send_time_packet (now : Z) (m : machine World) :
  let res := tlm_send_time World send_raw_packet now m in
  exists b0 b1 b2 b3,
    trace (snd res)
    = trace m ++ [EvSendRawPacket "AMSAT-11" "TIME-1" 0xF0
                    (PayloadBytes [b0; b1; b2; b3]) 4]
    /\ b0 = now mod 2 ^ 8
    /\ b1 = (now / 2 ^ 8) mod 2 ^ 8
    /\ b2 = (now / 2 ^ 16) mod 2 ^ 8
    /\ b3 = (now / 2 ^ 24) mod 2 ^ 8
    /\ le_decode [b0; b1; b2; b3] = now mod 2 ^ 32
    /\ (0 <= now < 2 ^ 32 -> le_decode [b0; b1; b2; b3] = now)
    /\ fst res
       = fst (send_raw_packet BROADCAST_CALLSIGN TIME_CALL PID_NO_PROTOCOL
                (PayloadBytes [b0; b1; b2; b3]) 4 (world m))
    /\ g_num_of_file_io_errors (snd res) = g_num_of_file_io_errors m.
Proof.
  intros res. subst res.
  exists (now mod 2 ^ 8), ((now / 2 ^ 8) mod 2 ^ 8),
         ((now / 2 ^ 16) mod 2 ^ 8), ((now / 2 ^ 24) mod 2 ^ 8).
  unfold tlm_send_time.
  change 0xff with 255. rewrite !land_255, !Z.shiftr_div_pow2 by lia.
  run_monad.
  destruct (send_raw_packet _ _ _ _ _ _) as [rc w']. cbn.
  repeat split.
  - apply le_bytes_mod.
  - intros H. cbn [le_decode]. rewrite le_bytes_mod.
    apply Z.mod_small. exact H.
Qed.

(** C10.  At program start the last-sample timestamp is 0 and the
    last-store timestamp is the start time [t0].  So when the sample
    period is positive, [t0] is beyond it and the clock does not run
    backwards, the first pass of the loop takes the sample action; and a
    pass stores only at a clock reading more than the store period past
    [t0]. *)
Theorem C10_startup_asymmetry
    (t0 now1 : Z) (rest : list Z) (verbose : bool) (w : World) :
  0 < period_to_sample_telem_in_seconds cfg ->
  period_to_sample_telem_in_seconds cfg < t0 ->
  t0 <= now1 ->
  let start := snd (main_startup World t0 (initial_machine World verbose w)) in
  let log := fst (main' t0 (now1 :: rest) (initial_machine World verbose w)) in
  last_time_checked_period_to_sample_telem start = 0
  /\ last_time_checked_wod start = t0
  /\ (exists r1 tl, log = (now1, r1) :: tl /\ sampled r1 = true)
  /\ (forall t r, In (t, r) log -> did_store r = true ->
        t - t0 > period_to_store_wod_in_seconds cfg).
Proof.
  intros HP Ht0 Hnow start log. subst start log.
  split; [reflexivity|]. split; [reflexivity|].
  rewrite main_eq.
  match goal with |- context [main_loop' _ ?x] => set (m0 := x) end.
  split.
  - rewrite main_loop_cons.
    destruct (main_iter' now1 m0) as [r1 m1] eqn:Hit.
    pose proof (iter_sampled _ _ _ _ Hit) as Hs.
    assert (sampled r1 = true).
    { rewrite Hs. unfold sample_due. cbn.
      apply andb_true_iff. rewrite !Z.ltb_lt. lia. }
    destruct (exited r1).
    + exists r1, []. auto.
    + destruct (main_loop' rest m1) as [log1 m2]. exists r1, log1. auto.
  - intros t r Hin Hs.
    destruct (main_loop' (now1 :: rest) m0) as [log m'] eqn:Hl.
    pose proof (main_loop_stored_after _ _ _ _ Hl t r Hin Hs) as H.
    cbn in H. lia.
Qed.

(** ** The trace of a run *)

Lemma iter_pass_events now m r m' :
  main_iter' now m = (r, m') ->
  trace m' =
  trace m ++ pass_events wod_telem_path sizeof_sensor_telemetry (g_verbose m)
               (g_sensor_telemetry m) now r.
Proof. intros H. rewrite (iter_trace _ _ _ _ H). reflexivity. Qed.

Lemma iter_frame now m r m' :
  main_iter' now m = (r, m') ->
  g_sensor_telemetry m' = frame_after (g_sensor_telemetry m) now r.
Proof. intros H. unfold frame_after. iter_cases H; reflexivity. Qed.

Lemma main_loop_run_events ticks :
  forall m log m',
    main_loop' ticks m = (log, m') ->
    trace m' =
    trace m ++ run_events wod_telem_path sizeof_sensor_telemetry
                 (g_verbose m) (g_sensor_telemetry m) log.
Proof.
  induction ticks as [|now rest IH]; intros m log m' H.
  - injection H as <- <-. cbn. rewrite app_nil_r. reflexivity.
  - loop_step H r m1 Hit.
    pose proof (iter_pass_events _ _ _ _ Hit) as Ht.
    pose proof (iter_frame _ _ _ _ Hit) as Hf.
    pose proof (iter_verbose _ _ _ _ Hit) as Hv.
    destruct (exited r).
    + injection H as <- <-. cbn. rewrite app_nil_r. exact Ht.
    + destruct (main_loop' rest m1) as [log1 m2] eqn:Hl.
      injection H as <- <-. cbn [run_events].
      rewrite (IH _ _ _ Hl), Ht, Hv, Hf, app_assoc. reflexivity.
Qed.

Lemma main_loop_verbose ticks :
  forall m log m',
    main_loop' ticks m = (log, m') -> g_verbose m' = g_verbose m.
Proof.
  induction ticks as [|now rest IH]; intros m log m' H.
  - injection H as <- <-. reflexivity.
  - loop_step H r m1 Hit.
    pose proof (iter_verbose _ _ _ _ Hit) as Hv.
    destruct (exited r).
    + injection H as <- <-. exact Hv.
    + destruct (main_loop' rest m1) as [log1 m2] eqn:Hl.
      injection H as <- <-. rewrite (IH _ _ _ Hl). exact Hv.
Qed.

(** In a log only the last pass can be one that exits. *)
Lemma main_loop_exit_last ticks :
  forall m log m',
    main_loop' ticks m = (log, m') ->
    forall pre e post, log = pre ++ e :: post ->
    exited (snd e) = true -> post = [].
Proof.
  induction ticks as [|now rest IH]; intros m log m' H pre e post Hlog Hex.
  - injection H as <- <-. destruct pre; discriminate.
  - loop_step H r m1 Hit.
    destruct (exited r) eqn:Hx.
    + injection H as <- <-.
      destruct pre as [|x [|y pre]]; try discriminate.
      injection Hlog as _ <-. reflexivity.
    + destruct (main_loop' rest m1) as [log1 m2] eqn:Hl.
      injection H as <- <-.
      destruct pre as [|x pre]; cbn in Hlog.
      * injection Hlog as <- _. cbn in Hex. congruence.
      * injection Hlog as _ Hlog. exact (IH _ _ _ Hl _ _ _ Hlog Hex).
Qed.

Lemma count_events_app (p : event -> bool) (a b : list event) :
  count_events p (a ++ b) = (count_events p a + count_events p b)%nat.
Proof. unfold count_events. rewrite filter_app, length_app. reflexivity. Qed.

Lemma sent_packets_app (a b : list event) :
  sent_packets (a ++ b) = sent_packets a ++ sent_packets b.
Proof. apply flat_map_app. Qed.

Lemma appended_frames_app (a b : list event) :
  appended_frames (a ++ b) = appended_frames a ++ appended_frames b.
Proof. apply flat_map_app. Qed.

Ltac pass_cases r :=
  unfold pass_events, did_store, did_roll, did_fail;
  destruct (stored r) as [[? [|] [|]]|]; destruct (sampled r);
  destruct (exited r).

Lemma run_events_counts path len verbose log :
  forall f,
    count_events is_log_append (run_events path len verbose f log)
    = count_stored log
    /\ count_events is_log_add_to_directory
         (run_events path len verbose f log) = count_rolled log
    /\ count_events is_send_raw_packet (run_events path len verbose f log)
       = count_sampled log.
Proof.
  induction log as [|[now r] rest IH]; intros f; [cbn; auto|].
  cbn [run_events]. rewrite !count_events_app.
  destruct (IH (frame_after f now r)) as (-> & -> & ->).
  unfold count_stored, count_rolled, count_sampled. cbn [filter snd].
  pass_cases r; destruct verbose; cbn; auto.
Qed.

(** X6.  The trace of a run agrees with its log: the run calls
    [log_append] once per store pass, [log_add_to_directory] once per
    pass that rolled, and [send_raw_packet] once per sample pass, and
    never otherwise. *)
Theorem trace_calls_match_log (ticks : list Z) (m : machine World) :
  let log := fst (main_loop' ticks m) in
  let m' := snd (main_loop' ticks m) in
  count_events is_log_append (trace m')
  = (count_events is_log_append (trace m) + count_stored log)%nat
  /\ count_events is_log_add_to_directory (trace m')
     = (count_events is_log_add_to_directory (trace m) + count_rolled log)%nat
  /\ count_events is_send_raw_packet (trace m')
     = (count_events is_send_raw_packet (trace m) + count_sampled log)%nat.
Proof.
  intros log m'. subst log m'.
  destruct (main_loop' ticks m) as [log m'] eqn:Hl. cbn [fst snd].
  rewrite (main_loop_run_events _ _ _ _ Hl), !count_events_app.
  destruct (run_events_counts wod_telem_path sizeof_sensor_telemetry
              (g_verbose m) log (g_sensor_telemetry m)) as (-> & -> & ->).
  auto.
Qed.

Lemma run_events_sent path len verbose log :
  forall f,
    sent_packets (run_events path len verbose f log)
    = map (fun u => (BROADCAST_CALLSIGN, TELEM_TYPE_1_CALL, PID_NO_PROTOCOL,
                     PayloadFrame (sensor_frame u), len))
          (sample_times log).
Proof.
  induction log as [|[now r] rest IH]; intros f; [reflexivity|].
  cbn [run_events]. rewrite sent_packets_app, IH.
  unfold sample_times. cbn [filter snd].
  pass_cases r; destruct verbose; reflexivity.
Qed.

(** X7.  Every packet the loop sends is a sensor telemetry frame from
    "AMSAT-11" to "TLMP1" with PID 0xF0 and the length of the frame, and
    the frames sent are, in order, the ones read at the sample passes of
    the run; the loop sends no time packet and nothing to "TLMP2". *)
Theorem loop_sends_only_sample_frames (ticks : list Z) (m : machine World) :
  let log := fst (main_loop' ticks m) in
  let m' := snd (main_loop' ticks m) in
  sent_packets (trace m')
  = sent_packets (trace m)
    ++ map (fun u => ("AMSAT-11"%string, "TLMP1"%string, 0xF0,
                      PayloadFrame (sensor_frame u),
                      sizeof_sensor_telemetry))
           (sample_times log).
Proof.
  intros log m'. subst log m'.
  destruct (main_loop' ticks m) as [log m'] eqn:Hl. cbn [fst snd].
  rewrite (main_loop_run_events _ _ _ _ Hl), sent_packets_app,
    run_events_sent.
  reflexivity.
Qed.

Lemma run_events_appended path len verbose log :
  forall f,
    appended_frames (run_events path len verbose f log) = wod_frames f log.
Proof.
  induction log as [|[now r] rest IH]; intros f; [reflexivity|].
  cbn [run_events wod_frames]. rewrite appended_frames_app, IH.
  f_equal. pass_cases r; destruct verbose; reflexivity.
Qed.

Lemma wod_frames_origin log :
  forall f g,
    In g (wod_frames f log) ->
    g = f \/ exists u, In u (sample_times log) /\ g = sensor_frame u.
Proof.
  induction log as [|[now r] rest IH]; intros f g Hin; [destruct Hin|].
  cbn [wod_frames] in Hin. apply in_app_or in Hin. destruct Hin as [Hin|Hin].
  - destruct (did_store r); [|destruct Hin].
    destruct Hin as [<-|[]]. left. reflexivity.
  - apply IH in Hin. unfold sample_times, frame_after in *.
    cbn [filter snd]. destruct (sampled r); cbn [map In].
    + destruct Hin as [->|(u & Hu & ->)].
      * right. exists now. auto.
      * right. exists u. auto.
    + exact Hin.
Qed.

(** X8.  A store writes the frame the program holds when the pass begins:
    the frame read at the latest sample of an earlier pass, or the frame
    held at loop entry when no pass has sampled yet; never the frame read
    in the same pass, because the store comes before the sample.  So each
    frame written is the entry frame or the frame of a sample of the
    run. *)
Theorem wod_gets_frame_of_earlier_sample (ticks : list Z) (m : machine World) :
  let log := fst (main_loop' ticks m) in
  let m' := snd (main_loop' ticks m) in
  appended_frames (trace m')
  = appended_frames (trace m) ++ wod_frames (g_sensor_telemetry m) log
  /\ (forall g, In g (wod_frames (g_sensor_telemetry m) log) ->
        g = g_sensor_telemetry m
        \/ exists u, In u (sample_times log) /\ g = sensor_frame u)
  /\ List.length (wod_frames (g_sensor_telemetry m) log) = count_stored log.
Proof.
  intros log m'. subst log m'.
  destruct (main_loop' ticks m) as [log m'] eqn:Hl. cbn [fst snd].
  split; [|split].
  - rewrite (main_loop_run_events _ _ _ _ Hl), appended_frames_app,
      run_events_appended.
    reflexivity.
  - intros g. apply wod_frames_origin.
  - generalize (g_sensor_telemetry m). clear Hl.
    induction log as [|[now r] rest IH]; intros f; [reflexivity|].
    cbn [wod_frames]. rewrite length_app, IH.
    unfold count_stored. cbn [filter snd].
    destruct (did_store r); reflexivity.
Qed.

Lemma filter_is_exit_pass path len verbose f now r :
  filter is_exit (pass_events path len verbose f now r)
  = if exited r then [EvExit 0] else [].
Proof. pass_cases r; destruct verbose; reflexivity. Qed.

Lemma filter_is_printf_pass_quiet path len f now r :
  filter is_printf (pass_events path len false f now r)
  = if exited r then [EvPrintf MsgTooManyErrors] else [].
Proof. pass_cases r; reflexivity. Qed.

Lemma has_exited_last (log : run_log) :
  (forall pre e post, log = pre ++ e :: post ->
                      exited (snd e) = true -> post = []) ->
  has_exited log = true ->
  exists pre t r, log = pre ++ [(t, r)] /\ exited r = true
                  /\ has_exited pre = false.
Proof.
  induction log as [|[now r] rest IH]; intros Hlast Hex; [discriminate|].
  destruct (exited r) eqn:Hx.
  - exists [], now, r. rewrite (Hlast [] (now, r) rest eq_refl Hx). auto.
  - unfold has_exited in Hex. cbn in Hex. rewrite Hx in Hex. cbn in Hex.
    destruct IH as (pre & t & r' & -> & Hr & Hpre).
    + intros pre e post E. apply (Hlast ((now, r) :: pre)). cbn. rewrite E.
      reflexivity.
    + exact Hex.
    + exists ((now, r) :: pre), t, r'. repeat split; auto.
      unfold has_exited. cbn. rewrite Hx. exact Hpre.
Qed.

Lemma run_events_no_exit path len verbose log :
  forall f,
    has_exited log = false ->
    filter is_exit (run_events path len verbose f log) = []
    /\ (verbose = false ->
        filter is_printf (run_events path len verbose f log) = []).
Proof.
  induction log as [|[now r] rest IH]; intros f Hex; [cbn; auto|].
  unfold has_exited in Hex. cbn in Hex. apply orb_false_iff in Hex.
  destruct Hex as [Hx Hrest]. cbn [run_events]. rewrite !filter_app.
  destruct (IH (frame_after f now r) Hrest) as [E1 E2].
  rewrite E1, filter_is_exit_pass, Hx. split; [reflexivity|].
  intros ->. rewrite E2, filter_is_printf_pass_quiet, Hx by reflexivity.
  reflexivity.
Qed.

Lemma run_events_snoc path len verbose pre e :
  forall f,
    exists f',
      run_events path len verbose f (pre ++ [e])
      = run_events path len verbose f pre
        ++ pass_events path len verbose f' (fst e) (snd e).
Proof.
  induction pre as [|[now r] pre IH]; intros f.
  - exists f. destruct e as [t r]. cbn. rewrite app_nil_r. reflexivity.
  - destruct (IH (frame_after f now r)) as (f' & E). exists f'.
    cbn [app run_events]. rewrite E, app_assoc. reflexivity.
Qed.

(** X9.  Every way out of the loop has exit status 0.  In a run that no
    signal interrupts, the trace holds an exit exactly when the error
    check has ended the run; that exit is the last event, it follows the
    message about too many errors, and its status is 0.  A signal handled
    by [signal_exit], in whatever state it finds the program, ends it with
    status 0 too, after the signal message when verbose mode is on and
    the signal number is positive, and without a message otherwise. *)
Theorem loop_exit_is_last_with_status_0 (ticks : list Z) (m : machine World) :
  let log := fst (main_loop' ticks m) in
  let m' := snd (main_loop' ticks m) in
  (filter is_exit (trace m')
   = filter is_exit (trace m) ++ (if has_exited log then [EvExit 0] else [])
   /\ (has_exited log = true ->
       exists pre, trace m' = pre ++ [EvPrintf MsgTooManyErrors; EvExit 0]))
  /\ (forall sig m0,
        trace (snd (signal_exit World sig m0))
        = trace m0
          ++ (if g_verbose m0 && (0 <? sig) then [EvPrintf MsgSignalReceived]
              else [])
          ++ [EvExit 0]).
Proof.
  intros log m'. subst log m'. split.
  2: { intros sig m0. run_monad.
       destruct (g_verbose m0 && (0 <? sig)); cbn;
         rewrite <- ?app_assoc; reflexivity. }
  destruct (main_loop' ticks m) as [log m'] eqn:Hl. cbn [fst snd].
  rewrite (main_loop_run_events _ _ _ _ Hl), filter_app.
  destruct (has_exited log) eqn:Hex.
  - destruct (has_exited_last log (main_loop_exit_last _ _ _ _ Hl) Hex)
      as (pre & t & r & -> & Hr & Hpre).
    destruct (run_events_snoc wod_telem_path sizeof_sensor_telemetry
                (g_verbose m) pre (t, r) (g_sensor_telemetry m))
      as (f' & ->).
    cbn [fst snd]. rewrite filter_app, filter_is_exit_pass, Hr.
    destruct (run_events_no_exit wod_telem_path sizeof_sensor_telemetry
                (g_verbose m) pre (g_sensor_telemetry m) Hpre) as [-> _].
    split; [reflexivity|]. intros _.
    unfold pass_events. rewrite Hr.
    eexists. rewrite !app_assoc. reflexivity.
  - destruct (run_events_no_exit wod_telem_path sizeof_sensor_telemetry
                (g_verbose m) log (g_sensor_telemetry m) Hex) as [-> _].
    split; [reflexivity|discriminate].
Qed.

(** X10.  Without [-v] the loop stays quiet: verbose mode is never switched
    on by the loop, and the only thing a run prints with [printf] is the
    message about too many errors, once, when it exits. *)
Theorem quiet_run_prints_only_the_exit_message
    (ticks : list Z) (m : machine World) :
  g_verbose m = false ->
  let log := fst (main_loop' ticks m) in
  let m' := snd (main_loop' ticks m) in
  g_verbose m' = false
  /\ filter is_printf (trace m')
     = filter is_printf (trace m)
       ++ (if has_exited log then [EvPrintf MsgTooManyErrors] else []).
Proof.
  intros Hq log m'. subst log m'.
  destruct (main_loop' ticks m) as [log m'] eqn:Hl. cbn [fst snd].
  split; [rewrite (main_loop_verbose _ _ _ _ Hl); exact Hq|].
  rewrite (main_loop_run_events _ _ _ _ Hl), filter_app, Hq. f_equal.
  destruct (has_exited log) eqn:Hex.
  - destruct (has_exited_last log (main_loop_exit_last _ _ _ _ Hl) Hex)
      as (pre & t & r & -> & Hr & Hpre).
    destruct (run_events_snoc wod_telem_path sizeof_sensor_telemetry
                false pre (t, r) (g_sensor_telemetry m)) as (f' & ->).
    cbn [fst snd]. rewrite filter_app, filter_is_printf_pass_quiet, Hr.
    destruct (run_events_no_exit wod_telem_path sizeof_sensor_telemetry
                false pre (g_sensor_telemetry m) Hpre) as [_ E].
    rewrite E by reflexivity. reflexivity.
  - destruct (run_events_no_exit wod_telem_path sizeof_sensor_telemetry
                false log (g_sensor_telemetry m) Hex) as [_ E].
    apply E. reflexivity.
Qed.

(** X11.  Two store attempts of a run are more than the store period
    apart, whether the appends succeed or fail: a failed append is not
    retried before the next period has passed. *)
Theorem store_attempts_spaced (ticks : list Z) (m : machine World)
    (pre : run_log) (t1 : Z) (r1 : iter_report) (mid : run_log) (t2 : Z)
    (r2 : iter_report) (post : run_log) :
  fst (main_loop' ticks m) = pre ++ (t1, r1) :: mid ++ (t2, r2) :: post ->
  did_store r1 = true -> did_store r2 = true ->
  period_to_store_wod_in_seconds cfg < t2 - t1.
Proof.
  revert m pre.
  induction ticks as [|now rest IH]; intros m pre Hlog H1 H2.
  - destruct pre; discriminate.
  - rewrite main_loop_cons in Hlog.
    destruct (main_iter' now m) as [r0 m1] eqn:Hit.
    pose proof (iter_last_wod _ _ _ _ Hit) as Hls.
    destruct (exited r0).
    + cbn [fst] in Hlog.
      destruct pre as [|x [|y pre]]; try discriminate;
        injection Hlog as _ Hlog; destruct mid; discriminate.
    + destruct (main_loop' rest m1) as [log1 m2] eqn:Hl. cbn [fst] in Hlog.
      destruct pre as [|x pre]; cbn in Hlog.
      * injection Hlog as E1 E2 E3. subst now r0 log1.
        rewrite H1 in Hls. rewrite <- Hls.
        apply (main_loop_stored_after _ _ _ _ Hl t2 r2); [|exact H2].
        apply in_or_app. right. left. reflexivity.
      * injection Hlog as _ Hlog.
        apply (IH m1 pre); [rewrite Hl; exact Hlog|exact H1|exact H2].
Qed.

Lemma did_fail_did_store r : did_fail r = true -> did_store r = true.
Proof. unfold did_fail, did_store. destruct (stored r); auto. Qed.

Lemma main_loop_exit_not_before ticks :
  forall m log m',
    main_loop' ticks m = (log, m') ->
    g_num_of_file_io_errors m <= max_number_file_io_errors cfg ->
    forall t r, In (t, r) log -> exited r = true ->
    (max_number_file_io_errors cfg + 1 - g_num_of_file_io_errors m)
    * (period_to_store_wod_in_seconds cfg + 1)
    <= t - last_time_checked_wod m.
Proof.
  induction ticks as [|now rest IH]; intros m log m' H Hle t r Hin Hex.
  - injection H as <- <-. destruct Hin.
  - loop_step H r0 m1 Hit.
    pose proof (iter_errors _ _ _ _ Hit) as He.
    pose proof (iter_exited _ _ _ _ Hit) as Hx.
    pose proof (iter_did_store _ _ _ _ Hit) as Hsd.
    pose proof (iter_last_wod _ _ _ _ Hit) as Hlw.
    assert (Hdue : did_store r0 = true ->
                   period_to_store_wod_in_seconds cfg + 1
                   <= now - last_time_checked_wod m
                   /\ 0 < period_to_store_wod_in_seconds cfg).
    { intros E. rewrite E in Hsd. symmetry in Hsd. unfold store_due in Hsd.
      rewrite !andb_true_iff, !Z.ltb_lt in Hsd. lia. }
    assert (Hhead : exited r0 = true ->
              (max_number_file_io_errors cfg + 1 - g_num_of_file_io_errors m)
              * (period_to_store_wod_in_seconds cfg + 1)
              <= now - last_time_checked_wod m).
    { intros E. rewrite E in Hx. symmetry in Hx. apply Z.ltb_lt in Hx.
      destruct (did_fail r0) eqn:Hf; [|lia].
      destruct (Hdue (did_fail_did_store _ Hf)).
      replace (g_num_of_file_io_errors m)
        with (max_number_file_io_errors cfg) by lia.
      lia. }
    destruct (exited r0) eqn:Hex0.
    + injection H as <- <-. destruct Hin as [E|[]]. injection E as <- <-.
      apply Hhead. reflexivity.
    + destruct (main_loop' rest m1) as [log1 m2] eqn:Hl.
      injection H as <- <-. destruct Hin as [E|Hin].
      * injection E as <- <-. congruence.
      * symmetry in Hx. apply Z.ltb_ge in Hx.
        specialize (IH _ _ _ Hl Hx _ _ Hin Hex).
        rewrite He, Hlw in IH.
        destruct (did_store r0) eqn:Hs.
        -- destruct (Hdue eq_refl) as [Hgap HP].
           destruct (did_fail r0); nia.
        -- assert (Hnf : did_fail r0 = false).
           { destruct (did_fail r0) eqn:Hf; [|reflexivity].
             apply did_fail_did_store in Hf. congruence. }
           rewrite Hnf, Z.add_0_r in IH. exact IH.
Qed.

(** X12.  The error check cannot end the run early: counted from program
    start at [t0], the exit for too many file errors comes no sooner than
    [(MAX + 1) * (P + 1)] seconds later, [MAX] being the maximum number of
    file errors and [P] the store period (366 s as compiled), whatever
    the clock and the collaborators do.  (A signal can end the process at
    any time; that way out is not the error check's.) *)
Theorem exit_not_before (t0 : Z) (ticks : list Z) (verbose : bool)
    (w : World) (t : Z) (r : iter_report) :
  0 <= max_number_file_io_errors cfg ->
  In (t, r) (fst (main' t0 ticks (initial_machine World verbose w))) ->
  exited r = true ->
  (max_number_file_io_errors cfg + 1)
  * (period_to_store_wod_in_seconds cfg + 1) <= t - t0.
Proof.
  intros HM Hin Hex. rewrite main_eq in Hin.
  match type of Hin with context [main_loop' ticks ?x] =>
    destruct (main_loop' ticks x) as [log m'] eqn:Hl end.
  cbn [fst] in Hin.
  pose proof (main_loop_exit_not_before _ _ _ _ Hl) as H.
  cbn in H. specialize (H HM _ _ Hin Hex). lia.
Qed.

Lemma last_cons (x : Z) (l : list Z) (d : Z) :
  List.last (x :: l) d = List.last l x.
Proof.
  revert x d. induction l as [|y l IH]; intros x d; [reflexivity|].
  change (List.last (x :: y :: l) d) with (List.last (y :: l) d).
  rewrite (IH y d), (IH y x). reflexivity.
Qed.

(** X13.  The two timers move only when their action fires: after a run
    the last-sample timestamp is the clock reading of the run's latest
    sample pass and the last-store timestamp that of its latest store
    pass, and a timer whose action did not fire is where it was. *)
Theorem timers_hold_latest_action (ticks : list Z) (m : machine World) :
  let log := fst (main_loop' ticks m) in
  let m' := snd (main_loop' ticks m) in
  last_time_checked_period_to_sample_telem m'
  = latest (sample_times log) (last_time_checked_period_to_sample_telem m)
  /\ last_time_checked_wod m'
     = latest (store_times log) (last_time_checked_wod m).
Proof.
  cbv zeta. revert m.
  induction ticks as [|now rest IH]; intros m; [cbn; auto|].
  rewrite main_loop_cons.
  destruct (main_iter' now m) as [r m1] eqn:Hit.
  pose proof (iter_last_sample _ _ _ _ Hit) as Hs.
  pose proof (iter_last_wod _ _ _ _ Hit) as Hw.
  unfold latest, sample_times, store_times in *.
  destruct (exited r).
  - cbn [fst snd filter map]. rewrite Hs, Hw.
    destruct (sampled r), (did_store r); cbn; auto.
  - specialize (IH m1). destruct (main_loop' rest m1) as [log1 m2].
    cbn [fst snd filter map] in *. destruct IH as [-> ->].
    rewrite Hs, Hw.
    destruct (sampled r), (did_store r); cbn [map]; rewrite ?last_cons;
      auto.
Qed.

(** X14.  The failure counter is never reset or decreased: over a run it
    grows by exactly the number of appends that took the error branch,
    which is at most the number of store passes; sample passes and sends
    do not touch it. *)
Theorem failure_counter_only_grows (ticks : list Z) (m : machine World) :
  let log := fst (main_loop' ticks m) in
  let m' := snd (main_loop' ticks m) in
  g_num_of_file_io_errors m'
  = g_num_of_file_io_errors m + Z.of_nat (count_failed log)
  /\ g_num_of_file_io_errors m <= g_num_of_file_io_errors m'
  /\ (count_failed log <= count_stored log)%nat.
Proof.
  cbv zeta.
  assert (H : g_num_of_file_io_errors (snd (main_loop' ticks m))
              = g_num_of_file_io_errors m
                + Z.of_nat (count_failed (fst (main_loop' ticks m)))
              /\ (count_failed (fst (main_loop' ticks m))
                  <= count_stored (fst (main_loop' ticks m)))%nat).
  { revert m. induction ticks as [|now rest IH]; intros m; [cbn; lia|].
    rewrite main_loop_cons.
    destruct (main_iter' now m) as [r m1] eqn:Hit.
    pose proof (iter_errors _ _ _ _ Hit) as He.
    assert (Hfs : did_fail r = true -> did_store r = true)
      by apply did_fail_did_store.
    unfold count_failed, count_stored in *.
    destruct (exited r).
    - cbn [fst snd filter]. rewrite He.
      destruct (did_fail r), (did_store r); cbn [List.length];
        try lia; specialize (Hfs eq_refl); discriminate.
    - specialize (IH m1). destruct (main_loop' rest m1) as [log1 m2].
      cbn [fst snd filter] in *. destruct IH as [-> IH]. rewrite He.
      destruct (did_fail r), (did_store r); cbn [List.length];
        try lia; specialize (Hfs eq_refl); discriminate. }
  destruct H as [H1 H2]. repeat split; [exact H1|lia|exact H2].
Qed.

(** X15.  A sample pass stamps the frame with the clock reading cut to 32
    bits, together with the fixed sensor values: the stamp is the reading
    itself exactly when the reading fits an unsigned 32-bit number, and
    readings [2 ^ 32] seconds apart give the same frame. *)
Theorem sample_stamp_is_reading_mod_2_32 (now : Z) (m : machine World) :
  sampled (fst (main_iter' now m)) = true ->
  let f := g_sensor_telemetry (snd (main_iter' now m)) in
  f = SensorTelemetry (now mod 2 ^ 32) 11 55 1 66 22 1
  /\ (timestamp f = now <-> 0 <= now < 2 ^ 32)
  /\ sensor_frame (now + 2 ^ 32) = sensor_frame now.
Proof.
  intros Hs f. subst f.
  destruct (main_iter' now m) as [r m'] eqn:Hit. cbn [fst snd] in *.
  rewrite (iter_frame _ _ _ _ Hit). unfold frame_after. rewrite Hs.
  unfold sensor_frame, to_uint32. cbn [timestamp].
  split; [reflexivity|]. split.
  - split; intros H.
    + rewrite <- H. apply Z.mod_pos_bound. lia.
    + apply Z.mod_small. exact H.
  - f_equal. replace (now + 2 ^ 32) with (now + 1 * 2 ^ 32) by lia.
    apply Z_mod_plus_full.
Qed.

Lemma to_int_id_iff z : to_int z = z <-> - 2 ^ 31 <= z < 2 ^ 31.
Proof.
  unfold to_int.
  pose proof (Z.mod_pos_bound (z + 2 ^ 31) (2 ^ 32) ltac:(lia)) as Hb.
  split; intros H.
  - lia.
  - rewrite Z.mod_small by lia. lia.
Qed.

Lemma to_int_upper_half z :
  2 ^ 31 <= z < 2 ^ 32 -> to_int z = z - 2 ^ 32.
Proof.
  intros H. unfold to_int.
  replace (z + 2 ^ 31) with (z - 2 ^ 31 + 1 * 2 ^ 32) by lia.
  rewrite Z_mod_plus_full, Z.mod_small by lia. lia.
Qed.

(** X16.  [tlm_send_sensor_telem] prints one debug line and then makes
    exactly one call of [send_raw_packet]: from "AMSAT-11" to "TLMP1" with
    PID 0xF0, the frame held in [g_sensor_telemetry] as payload and the
    frame size as length.  The packet carries the frame's timestamp as it
    is, but the debug line shows it through [%d]: the number shown is the
    timestamp exactly when the timestamp is below [2 ^ 31] (and not below
    [- 2 ^ 31]), and for a timestamp from [2 ^ 31] up to [2 ^ 32] it is
    the timestamp minus [2 ^ 32], a negative number.  The function returns
    what the call returns and changes none of the program's globals. *)
Theorem tlm_send_sensor_telem_packet (m : machine World) :
  let f := g_sensor_telemetry m in
  let res := tlm_send_sensor_telem World sizeof_sensor_telemetry
               send_raw_packet m in
  let sent := send_raw_packet "AMSAT-11" "TLMP1" 0xF0 (PayloadFrame f)
                sizeof_sensor_telemetry (world m) in
  exists shown,
    trace (snd res)
    = trace m ++ [EvDebugPrint (MsgSendingTelem shown);
                  EvSendRawPacket "AMSAT-11" "TLMP1" 0xF0 (PayloadFrame f)
                    sizeof_sensor_telemetry]
    /\ (shown = timestamp f <-> - 2 ^ 31 <= timestamp f < 2 ^ 31)
    /\ (2 ^ 31 <= timestamp f < 2 ^ 32 -> shown = timestamp f - 2 ^ 32)
    /\ fst res = fst sent
    /\ world (snd res) = snd sent
    /\ g_sensor_telemetry (snd res) = f
    /\ g_num_of_file_io_errors (snd res) = g_num_of_file_io_errors m
    /\ last_time_checked_wod (snd res) = last_time_checked_wod m
    /\ last_time_checked_period_to_sample_telem (snd res)
       = last_time_checked_period_to_sample_telem m
    /\ g_verbose (snd res) = g_verbose m.
Proof.
  cbv zeta. exists (to_int (timestamp (g_sensor_telemetry m))).
  split; [|split; [apply to_int_id_iff|split; [apply to_int_upper_half|]]].
  - run_monad.
    unfold BROADCAST_CALLSIGN, TELEM_TYPE_1_CALL, PID_NO_PROTOCOL.
    destruct (send_raw_packet _ _ _ _ _ _) as [rc w']. cbn.
    rewrite <- app_assoc. reflexivity.
  - run_monad.
    unfold BROADCAST_CALLSIGN, TELEM_TYPE_1_CALL, PID_NO_PROTOCOL.
    destruct (send_raw_packet _ _ _ _ _ _) as [rc w']. cbn.
    repeat split.
Qed.

(** ** A clock that advances one second per pass *)

Lemma first_sample_on_unit_clock (n : nat) :
  forall a m pre t r post,
    0 < period_to_sample_telem_in_seconds cfg ->
    a - last_time_checked_period_to_sample_telem m
    <= period_to_sample_telem_in_seconds cfg + 1 ->
    fst (main_loop' (clock a 1 n) m) = pre ++ (t, r) :: post ->
    existsb (fun e => sampled (snd e)) pre = false ->
    sampled r = true ->
    t - last_time_checked_period_to_sample_telem m
    = period_to_sample_telem_in_seconds cfg + 1.
Proof.
  induction n as [|n IH]; intros a m pre t r post HP Ha Hlog Hpre Hs.
  - destruct pre; discriminate.
  - cbn [clock] in Hlog. rewrite main_loop_cons in Hlog.
    destruct (main_iter' a m) as [r0 m1] eqn:Hit.
    pose proof (iter_sampled _ _ _ _ Hit) as Hsd.
    pose proof (iter_last_sample _ _ _ _ Hit) as Hls.
    unfold sample_due in Hsd.
    destruct pre as [|x pre].
    + assert (E : (a, r0) = (t, r)).
      { destruct (exited r0); [|destruct (main_loop' _ m1)];
          cbn in Hlog; congruence. }
      injection E as <- <-. rewrite Hs in Hsd. symmetry in Hsd.
      rewrite andb_true_iff, !Z.ltb_lt in Hsd. lia.
    + destruct (exited r0).
      * cbn in Hlog. destruct pre; discriminate.
      * destruct (main_loop' (clock (a + 1) 1 n) m1) as [log1 m2] eqn:Hl.
        cbn in Hlog. injection Hlog as <- Hlog.
        cbn in Hpre. apply orb_false_iff in Hpre. destruct Hpre as [H0 Hpre].
        rewrite H0 in Hsd, Hls. symmetry in Hsd.
        rewrite andb_false_iff, !Z.ltb_ge in Hsd.
        rewrite <- Hls.
        apply (IH (a + 1) m1 pre t r post HP); try assumption.
        -- rewrite Hls. lia.
        -- rewrite Hl. exact Hlog.
Qed.

(** X17.  On a clock that advances one second per pass, consecutive sample
    actions are exactly [P + 1] seconds apart, [P > 0] being the sample
    period: the loop samples every 11 seconds as compiled, not every
    10. *)
Theorem unit_clock_samples_every_P_plus_1 (n : nat) (a : Z)
    (m : machine World) (pre : run_log) (t1 : Z) (r1 : iter_report)
    (mid : run_log) (t2 : Z) (r2 : iter_report) (post : run_log) :
  0 < period_to_sample_telem_in_seconds cfg ->
  fst (main_loop' (clock a 1 n) m)
  = pre ++ (t1, r1) :: mid ++ (t2, r2) :: post ->
  sampled r1 = true ->
  existsb (fun e => sampled (snd e)) mid = false ->
  sampled r2 = true ->
  t2 - t1 = period_to_sample_telem_in_seconds cfg + 1.
Proof.
  intros HP. revert a m pre.
  induction n as [|n IH]; intros a m pre Hlog H1 Hmid H2.
  - destruct pre; discriminate.
  - cbn [clock] in Hlog. rewrite main_loop_cons in Hlog.
    destruct (main_iter' a m) as [r0 m1] eqn:Hit.
    pose proof (iter_last_sample _ _ _ _ Hit) as Hls.
    destruct (exited r0).
    + cbn in Hlog.
      destruct pre as [|x [|y pre]]; try discriminate;
        injection Hlog as _ Hlog; destruct mid; discriminate.
    + destruct (main_loop' (clock (a + 1) 1 n) m1) as [log1 m2] eqn:Hl.
      cbn [fst] in Hlog. destruct pre as [|x pre]; cbn in Hlog.
      * injection Hlog as E1 E2 E3. subst a r0 log1.
        rewrite H1 in Hls. rewrite <- Hls.
        apply (first_sample_on_unit_clock n (t1 + 1) m1 mid t2 r2 post HP);
          try assumption.
        -- rewrite Hls. lia.
        -- rewrite Hl. reflexivity.
      * injection Hlog as _ Hlog.
        apply (IH (a + 1) m1 pre); try assumption.
        rewrite Hl. exact Hlog.
Qed.

Lemma first_store_on_unit_clock (n : nat) :
  forall a m pre t r post,
    a - last_time_checked_wod m <= period_to_store_wod_in_seconds cfg + 1 ->
    fst (main_loop' (clock a 1 n) m) = pre ++ (t, r) :: post ->
    existsb (fun e => did_store (snd e)) pre = false ->
    did_store r = true ->
    t - last_time_checked_wod m = period_to_store_wod_in_seconds cfg + 1.
Proof.
  induction n as [|n IH]; intros a m pre t r post Ha Hlog Hpre Hs.
  - destruct pre; discriminate.
  - cbn [clock] in Hlog. rewrite main_loop_cons in Hlog.
    destruct (main_iter' a m) as [r0 m1] eqn:Hit.
    pose proof (iter_did_store _ _ _ _ Hit) as Hsd.
    pose proof (iter_last_wod _ _ _ _ Hit) as Hls.
    unfold store_due in Hsd.
    destruct pre as [|x pre].
    + assert (E : (a, r0) = (t, r)).
      { destruct (exited r0); [|destruct (main_loop' _ m1)];
          cbn in Hlog; congruence. }
      injection E as <- <-. rewrite Hs in Hsd. symmetry in Hsd.
      rewrite !andb_true_iff, !Z.ltb_lt in Hsd. lia.
    + destruct (exited r0).
      * cbn in Hlog. destruct pre; discriminate.
      * destruct (main_loop' (clock (a + 1) 1 n) m1) as [log1 m2] eqn:Hl.
        cbn in Hlog. injection Hlog as <- Hlog.
        cbn in Hpre. apply orb_false_iff in Hpre. destruct Hpre as [H0 Hpre].
        assert (Hen : 0 < period_to_sample_telem_in_seconds cfg
                      /\ 0 < period_to_store_wod_in_seconds cfg).
        { assert (Hin : In (t, r) log1)
            by (rewrite Hlog; apply in_or_app; right; left; reflexivity).
          clear - Hl Hin Hs.
          revert m1 log1 m2 Hl Hin. generalize (a + 1).
          induction n as [|k IHk]; intros b m1 log1 m2 Hl Hin.
          - injection Hl as <- <-. destruct Hin.
          - cbn [clock] in Hl. rewrite main_loop_cons in Hl.
            destruct (main_iter' b m1) as [rr mm] eqn:Hit.
            pose proof (iter_did_store _ _ _ _ Hit) as Hd.
            assert (Hhd : (b, rr) = (t, r) ->
                          0 < period_to_sample_telem_in_seconds cfg
                          /\ 0 < period_to_store_wod_in_seconds cfg).
            { intros E. injection E as _ ->. rewrite Hs in Hd.
              symmetry in Hd. unfold store_due in Hd.
              rewrite !andb_true_iff, !Z.ltb_lt in Hd. lia. }
            destruct (exited rr).
            + injection Hl as <- <-. destruct Hin as [E|[]]. auto.
            + destruct (main_loop' (clock (b + 1) 1 k) mm) as [l2 m3] eqn:Hl2.
              injection Hl as <- <-. destruct Hin as [E|Hin]; [auto|].
              exact (IHk _ _ _ _ Hl2 Hin). }
        rewrite H0 in Hsd, Hls. symmetry in Hsd.
        rewrite !andb_false_iff, !Z.ltb_ge in Hsd.
        rewrite <- Hls.
        apply (IH (a + 1) m1 pre t r post); try assumption.
        -- rewrite Hls. lia.
        -- rewrite Hl. exact Hlog.
Qed.

(** X18.  On a clock that advances one second per pass, consecutive store
    attempts are exactly [P + 1] seconds apart, [P] being the store
    period: the loop stores every 61 seconds as compiled, not every
    60. *)
Theorem unit_clock_stores_every_P_plus_1 (n : nat) (a : Z)
    (m : machine World) (pre : run_log) (t1 : Z) (r1 : iter_report)
    (mid : run_log) (t2 : Z) (r2 : iter_report) (post : run_log) :
  fst (main_loop' (clock a 1 n) m)
  = pre ++ (t1, r1) :: mid ++ (t2, r2) :: post ->
  did_store r1 = true ->
  existsb (fun e => did_store (snd e)) mid = false ->
  did_store r2 = true ->
  t2 - t1 = period_to_store_wod_in_seconds cfg + 1.
Proof.
  revert a m pre.
  induction n as [|n IH]; intros a m pre Hlog H1 Hmid H2.
  - destruct pre; discriminate.
  - cbn [clock] in Hlog. rewrite main_loop_cons in Hlog.
    destruct (main_iter' a m) as [r0 m1] eqn:Hit.
    pose proof (iter_last_wod _ _ _ _ Hit) as Hls.
    destruct (exited r0).
    + cbn in Hlog.
      destruct pre as [|x [|y pre]]; try discriminate;
        injection Hlog as _ Hlog; destruct mid; discriminate.
    + destruct (main_loop' (clock (a + 1) 1 n) m1) as [log1 m2] eqn:Hl.
      cbn [fst] in Hlog. destruct pre as [|x pre]; cbn in Hlog.
      * injection Hlog as E1 E2 E3. subst a r0 log1.
        rewrite H1 in Hls. rewrite <- Hls.
        apply (first_store_on_unit_clock n (t1 + 1) m1 mid t2 r2 post);
          try assumption.
        -- rewrite Hls.
           assert (0 < period_to_store_wod_in_seconds cfg); [|lia].
           pose proof (iter_did_store _ _ _ _ Hit) as Hd.
           rewrite H1 in Hd. symmetry in Hd. unfold store_due in Hd.
           rewrite !andb_true_iff, !Z.ltb_lt in Hd. lia.
        -- rewrite Hl. reflexivity.
      * injection Hlog as _ Hlog.
        apply (IH (a + 1) m1 pre); try assumption.
        rewrite Hl. exact Hlog.
Qed.

End Facts.

(** ** A failed send *)

Section SendFailure.

Variable World : Type.
Variable sizeof_sensor_telemetry : Z.
Variable log_append : string -> sensor_telemetry_t -> Z -> World -> Z * World.
Variable log_add_to_directory : string -> World -> World.
(** Two TNCs that may answer differently. *)
Variable send_ok send_failing :
  string -> string -> Z -> payload -> Z -> World -> Z * World.
Variable cfg : config.
Variable wod_telem_path : string.

Lemma sample_telem_ignores_rc (now : Z) (m : machine World) :
  (forall from to pid data len w,
      snd (send_failing from to pid data len w)
      = snd (send_ok from to pid data len w)) ->
  sample_telem World sizeof_sensor_telemetry send_failing now m
  = sample_telem World sizeof_sensor_telemetry send_ok now m.
Proof.
  intros Hsame. rewrite !sample_telem_eq. cbv zeta. rewrite Hsame.
  reflexivity.
Qed.

Lemma main_iter_ignores_rc (now : Z) (m : machine World) :
  (forall from to pid data len w,
      snd (send_failing from to pid data len w)
      = snd (send_ok from to pid data len w)) ->
  main_iter World sizeof_sensor_telemetry log_append log_add_to_directory
    send_failing cfg wod_telem_path now m
  = main_iter World sizeof_sensor_telemetry log_append log_add_to_directory
      send_ok cfg wod_telem_path now m.
Proof.
  intros Hsame. rewrite !main_iter_eq. cbv zeta.
  destruct (store_due _ _ _); destruct (sample_due _ _ _);
    try reflexivity; rewrite sample_telem_ignores_rc by exact Hsame;
    reflexivity.
Qed.

(** C8 (amended).  The value returned by [tlm_send_sensor_telem] is
    dropped: with a TNC whose sends fail the loop body, and the whole
    run, report the same, exit at the same pass and leave the same
    globals, the same collaborator state and the same trace (appends,
    rolls and everything printed) as with a TNC whose sends succeed.  A
    failed send neither stops the loop nor changes WOD logging, and the
    program neither counts nor prints it. *)
Theorem C8_send_result_is_dropped (ticks : list Z) (m : machine World) :
  (forall from to pid data len w,
      snd (send_failing from to pid data len w)
      = snd (send_ok from to pid data len w)) ->
  (forall now m1,
      main_iter World sizeof_sensor_telemetry log_append
        log_add_to_directory send_failing cfg wod_telem_path now m1
      = main_iter World sizeof_sensor_telemetry log_append
          log_add_to_directory send_ok cfg wod_telem_path now m1)
  /\ main_loop World sizeof_sensor_telemetry log_append
       log_add_to_directory send_failing cfg wod_telem_path ticks m
     = main_loop World sizeof_sensor_telemetry log_append
         log_add_to_directory send_ok cfg wod_telem_path ticks m.
Proof.
  intros Hsame. split.
  - intros now m1. apply main_iter_ignores_rc, Hsame.
  - revert m. induction ticks as [|now rest IH]; intros m.
    + reflexivity.
    + rewrite !main_loop_cons, main_iter_ignores_rc by exact Hsame.
      destruct (main_iter _ _ _ _ _ _ _ _ _) as [r m1].
      destruct (exited r); [reflexivity|]. rewrite IH. reflexivity.
Qed.

End SendFailure.

(** ** The program run on concrete inputs *)

Module Runs.
Import Collab.

(** The scenario of the spec with a destination that cannot be written
    (every append returns 0): six store attempts, at 61 s intervals, and
    the loop exits in the pass of the sixth. *)
Lemma broken_destination_run :
  let res := broken_main 0 false 0 (clock 0 1 601) in
  store_times (fst res) = [61; 122; 183; 244; 305; 366]
  /\ count_failed (fst res) = 6%nat
  /\ has_exited (fst res) = true
  /\ map fst (fst res) = clock 0 1 367
  /\ g_num_of_file_io_errors (snd res) = 6.
Proof. vm_compute. repeat split. Qed.

(** C1, counterexample.  As compiled, 10 s after the last sample the sample
    check is not yet due, and 60 s after the last store the store check is
    not yet due. *)
Lemma C1_counterexample :
  let m0 := started false 0 in
  ~ (sampled (fst (working_iter header_config 0 10 m0)) = true
     <-> 10 - last_time_checked_period_to_sample_telem m0
         >= PERIOD_TO_SAMPLE_TELEM_IN_SECONDS)
  /\ ~ (did_store (fst (working_iter header_config 0 60 m0)) = true
        <-> 60 - last_time_checked_wod m0 >= PERIOD_TO_STORE_WOD_IN_SECONDS).
Proof.
  cbv zeta. split; intros [_ H].
  - assert (E : sampled (fst (working_iter header_config 0 10
                                 (started false 0))) = false)
      by (vm_compute; reflexivity).
    rewrite E in H. discriminate H. vm_compute. discriminate.
  - assert (E : did_store (fst (working_iter header_config 0 60
                                   (started false 0))) = false)
      by (vm_compute; reflexivity).
    rewrite E in H. discriminate H. vm_compute. discriminate.
Qed.

Lemma C1_witness :
  0 < period_to_sample_telem_in_seconds header_config
  /\ 0 < period_to_store_wod_in_seconds header_config
  /\ let m := started false 0 in
     let r := fst (working_iter header_config 0 11 m) in
     (sample_due header_config 11
        (last_time_checked_period_to_sample_telem m) = true
      <-> 11 - last_time_checked_period_to_sample_telem m
          > period_to_sample_telem_in_seconds header_config)
     /\ (store_due header_config 11 (last_time_checked_wod m) = true
         <-> 11 - last_time_checked_wod m
             > period_to_store_wod_in_seconds header_config)
     /\ sampled r
        = sample_due header_config 11
            (last_time_checked_period_to_sample_telem m)
     /\ did_store r = store_due header_config 11 (last_time_checked_wod m).
Proof.
  split; [reflexivity|]. split; [reflexivity|].
  apply (C1_due_iff_period_exceeded wod_fs 32 working_log_append
           working_log_add_to_directory (const_send_raw_packet 0)
           header_config "/tmp/wod" 11 (started false 0));
    reflexivity.
Defined.

(** C2, the code at the failing input.  When [log_append] returns -1, which
    is less than the 32-byte frame size, the pass at t = 61 s stores, does
    not take the error branch, and leaves the failure counter at 0; a
    verbose run prints the success message.  A return of 0 is counted. *)
Theorem C2_negative_return_not_counted :
  let m0 := started true 0 in
  let res := broken_iter (-1) 61 m0 in
  stored (fst res) = Some (StoreReport (-1) false false)
  /\ -1 < 32
  /\ g_num_of_file_io_errors (snd res) = g_num_of_file_io_errors m0
  /\ printed (trace (snd res))
     = [EvPrintf (MsgWroteWod "/tmp/wod" 0);
        EvDebugPrint (MsgSendingTelem 61)]
  /\ g_num_of_file_io_errors (snd (broken_iter 0 61 m0))
     = g_num_of_file_io_errors m0 + 1.
Proof. vm_compute. repeat split. Qed.

(** C3, the code at the failing input.  With a destination whose appends
    all return -1, which is less than the 32-byte frame size, the six
    consecutive failed appends at t = 61, 122, ..., 366 s (the maximum of
    five, plus one) leave the failure counter at 0 and the loop running,
    and so do the 32 failed appends of 2001 passes.  With appends that
    return 0 the loop exits in the pass of the sixth.  The defect is the
    one of C2: line 160 compares the size as an unsigned number. *)
Theorem C3_failed_appends_do_not_exit :
  let six := broken_main (-1) false 0 (clock 0 1 367) in
  let many := broken_main (-1) false 0 (clock 0 1 2001) in
  store_times (fst six) = clock 61 61 6
  /\ store_sizes (fst six) = repeat (-1) 6
  /\ Z.of_nat (count_stored (fst six)) = MAX_NUMBER_FILE_IO_ERRORS + 1
  /\ g_num_of_file_io_errors (snd six) = 0
  /\ has_exited (fst six) = false
  /\ map fst (fst six) = clock 0 1 367
  /\ count_stored (fst many) = 32%nat
  /\ store_sizes (fst many) = repeat (-1) 32
  /\ g_num_of_file_io_errors (snd many) = 0
  /\ has_exited (fst many) = false
  /\ map fst (fst many) = clock 0 1 2001
  /\ has_exited (fst (broken_main 0 false 0 (clock 0 1 367))) = true.
Proof. vm_compute. repeat split. Qed.

Lemma exit_iff_counted_errors_exceed_maximum_witness :
  0 <= max_number_file_io_errors header_config
  /\ let log := fst (broken_main 0 false 0 (clock 0 1 601)) in
     let m' := snd (broken_main 0 false 0 (clock 0 1 601)) in
     (forall now m,
         exited (fst (broken_iter 0 now m)) = true
         <-> g_num_of_file_io_errors (snd (broken_iter 0 now m))
             > max_number_file_io_errors header_config)
     /\ g_num_of_file_io_errors m' = Z.of_nat (count_failed log)
     /\ (has_exited log = true
         <-> Z.of_nat (count_failed log)
             = max_number_file_io_errors header_config + 1)
     /\ (has_exited log = false
         <-> Z.of_nat (count_failed log)
             <= max_number_file_io_errors header_config)
     /\ (has_exited log = false -> map fst log = clock 0 1 601).
Proof.
  split; [discriminate|].
  apply (exit_iff_counted_errors_exceed_maximum wod_fs 32 (broken_log_append 0)
           working_log_add_to_directory (const_send_raw_packet 0)
           header_config "/tmp/wod" 0 (clock 0 1 601) false empty_fs).
  discriminate.
Defined.

(** C4, counterexample.  On the scenario's clock (start at t = 0, then a
    pass at each of t = 0, 1, ..., 600, or at each of t = 1, ..., 600) the
    program as compiled does not make 60 sample events and 10 store
    events. *)
Lemma C4_counterexample :
  ~ (count_sampled (fst (working_main false 0 (clock 0 1 601))) = 60%nat
     /\ count_stored (fst (working_main false 0 (clock 0 1 601))) = 10%nat)
  /\ ~ (count_sampled (fst (working_main false 0 (clock 1 1 600))) = 60%nat
        /\ count_stored (fst (working_main false 0 (clock 1 1 600)))
           = 10%nat).
Proof.
  split; intros [H _]; vm_compute in H; discriminate H.
Qed.

(** C4 (amended).  With the header settings (sample period 10 s, store
    period 60 s, maximum 5 errors, maximum size 10 KB), a 32-byte frame, a
    working sensor reader, WOD log and TNC, started at t = 0 and making a
    pass at each of t = 0, 1, ..., 600, the loop makes exactly 54 sample
    and broadcast events (at t = 11, 22, ..., 594) and exactly 9 store
    events (at t = 61, 122, ..., 549); the working file grows by 32 bytes
    with every store event, to 288 bytes; the file is never rolled, the
    failure counter stays 0 and the loop has made all 601 passes without
    exiting. *)
Theorem C4_scenario :
  let res := working_main false 0 (clock 0 1 601) in
  let log := fst res in
  let m' := snd res in
  count_sampled log = 54%nat
  /\ sample_times log = clock 11 11 54
  /\ count_events is_send_raw_packet (trace m') = 54%nat
  /\ count_stored log = 9%nat
  /\ store_times log = clock 61 61 9
  /\ count_events is_log_append (trace m') = 9%nat
  /\ store_sizes log = clock 32 32 9
  /\ working_size (world m') = 288
  /\ List.length (working_file (world m')) = 9%nat
  /\ count_rolled log = 0%nat
  /\ count_events is_log_add_to_directory (trace m') = 0%nat
  /\ completed (world m') = []
  /\ count_failed log = 0%nat
  /\ g_num_of_file_io_errors m' = 0
  /\ has_exited log = false
  /\ map fst log = clock 0 1 601.
Proof. vm_compute. repeat split. Qed.

Lemma C5_witness :
  0 <= max_wod_file_size_in_kb header_config
  /\ 0 < 32 <= (max_wod_file_size_in_kb header_config + 1) * 1024
  /\ let m := started false 0 in
     let r := fst (working_iter header_config 0 61 m) in
     let m' := snd (working_iter header_config 0 61 m) in
     (did_roll r = true
      <-> exists s, stored r = Some s /\ failed s = false
                    /\ 32 <= size s
                    /\ c_div (size s) 1024
                       > max_wod_file_size_in_kb header_config)
     /\ (forall s, stored r = Some s ->
           size s < (max_wod_file_size_in_kb header_config + 1) * 1024 ->
           rolled s = false)
     /\ exists evs,
          trace m' = trace m ++ evs
          /\ count_events is_log_add_to_directory evs
             = (if did_roll r then 1%nat else 0%nat)
          /\ roll_only_after_append false evs = true.
Proof.
  split; [discriminate|]. split; [split; [reflexivity|discriminate]|].
  apply (C5_roll_iff_successful_append_over_threshold wod_fs 32
           working_log_append working_log_add_to_directory
           (const_send_raw_packet 0) header_config "/tmp/wod" 61
           (started false 0)).
  - discriminate.
  - split; [reflexivity|discriminate].
Defined.

(** A pass that does roll: the working file already holds 11264 bytes. *)
Lemma roll_at_threshold :
  let m := Machine false zero_telemetry 0 0 0 (WodFs [] 11232 []) [] in
  let res := working_iter header_config 0 61 m in
  stored (fst res) = Some (StoreReport 11264 false true)
  /\ world (snd res) = WodFs [] 0 [[zero_telemetry]]
  /\ did_roll (fst (working_iter header_config 0 61
                      (Machine false zero_telemetry 0 0 0
                         (WodFs [] 11231 []) []))) = false.
Proof. vm_compute. repeat split. Qed.

(** C6, counterexample.  With the store period 60 s and the sample period
    0 the store action is overdue at t = 61 s and yet the pass does not
    store; over 600 s no store event fires, while with the sample period
    10 s nine do. *)
Lemma C6_counterexample :
  let cfg := Config 0 60 10 5 in
  let m0 := started false 0 in
  0 < period_to_store_wod_in_seconds cfg
  /\ period_to_sample_telem_in_seconds cfg <= 0
  /\ 61 - last_time_checked_wod m0 > period_to_store_wod_in_seconds cfg
  /\ did_store (fst (working_iter cfg 0 61 m0)) = false
  /\ store_times (fst (working_main_with cfg false 0 (clock 0 1 601))) = []
  /\ store_times (fst (working_main_with header_config false 0
                         (clock 0 1 601)))
     = [61; 122; 183; 244; 305; 366; 427; 488; 549].
Proof. vm_compute. repeat split; intros; discriminate. Qed.

Lemma C6_witness :
  let cfg := Config 0 60 10 5 in
  (forall now m,
     let r := fst (working_iter cfg 0 now m) in
     (sampled r = true
      <-> 0 < period_to_sample_telem_in_seconds cfg
          /\ period_to_sample_telem_in_seconds cfg
             < now - last_time_checked_period_to_sample_telem m)
     /\ (did_store r = true
         <-> 0 < period_to_sample_telem_in_seconds cfg
             /\ 0 < period_to_store_wod_in_seconds cfg
             /\ period_to_store_wod_in_seconds cfg
                < now - last_time_checked_wod m))
  /\ (period_to_sample_telem_in_seconds cfg <= 0 ->
      let log := fst (working_main_with cfg false 0 (clock 0 1 601)) in
      count_stored log = 0%nat /\ count_sampled log = 0%nat).
Proof.
  exact (C6_store_check_nested_in_sample_guard wod_fs 32 working_log_append
           working_log_add_to_directory (const_send_raw_packet 0)
           (Config 0 60 10 5) "/tmp/wod" 0 (clock 0 1 601) false empty_fs).
Defined.

(** C7, counterexample.  As compiled (period 10 s), on the strictly
    increasing clock 100, 105, 110, 115, 120 the sample actions fall at
    100 and 115, so the closed interval [[101, 111]] of length 10 holds
    none; and on the one-second clock started at 0 the first sample action
    is at 11, so the closed interval [[0, 10]] holds none. *)
Lemma C7_counterexample :
  let log5 := fst (working_main false 100 [100; 105; 110; 115; 120]) in
  let log1 := fst (working_main false 0 (clock 0 1 31)) in
  sample_times log5 = [100; 115]
  /\ 100 <= 101 /\ 101 + PERIOD_TO_SAMPLE_TELEM_IN_SECONDS <= 120
  /\ ~ sampled_in log5 101 (101 + PERIOD_TO_SAMPLE_TELEM_IN_SECONDS)
  /\ sample_times log1 = [11; 22]
  /\ ~ sampled_in log1 0 (0 + PERIOD_TO_SAMPLE_TELEM_IN_SECONDS).
Proof.
  cbv zeta. unfold sampled_in.
  replace (sample_times (fst (working_main false 100
                                [100; 105; 110; 115; 120])))
    with [100; 115] by (vm_compute; reflexivity).
  replace (sample_times (fst (working_main false 0 (clock 0 1 31))))
    with [11; 22] by (vm_compute; reflexivity).
  unfold PERIOD_TO_SAMPLE_TELEM_IN_SECONDS. cbn [In].
  repeat split; try lia.
  - intros (u & [E|[E|[]]] & Hu); lia.
  - intros (u & [E|[E|[]]] & Hu); lia.
Qed.

Lemma C7_witness :
  0 < period_to_sample_telem_in_seconds header_config
  /\ nondecreasing [100; 105; 110; 115; 120]
  /\ let log := fst (working_main false 100 [100; 105; 110; 115; 120]) in
     (forall pre t1 r1 mid t2 r2 post,
         log = pre ++ (t1, r1) :: mid ++ (t2, r2) :: post ->
         sampled r1 = true -> sampled r2 = true ->
         period_to_sample_telem_in_seconds header_config < t2 - t1)
     /\ (forall pre t r post,
           log = pre ++ (t, r) :: post ->
           period_to_sample_telem_in_seconds header_config < t ->
           exists u ru,
             In (u, ru) (pre ++ [(t, r)]) /\ sampled ru = true
             /\ t - period_to_sample_telem_in_seconds header_config
                <= u <= t).
Proof.
  assert (Hmono : nondecreasing [100; 105; 110; 115; 120]).
  { cbn. repeat split; intros u Hu;
      repeat (destruct Hu as [<-|Hu]; [discriminate|]); destruct Hu. }
  split; [reflexivity|]. split; [exact Hmono|].
  apply (C7_sample_spacing wod_fs 32 working_log_append
           working_log_add_to_directory (const_send_raw_packet 0)
           header_config "/tmp/wod" 100 [100; 105; 110; 115; 120] false
           empty_fs).
  - reflexivity.
  - exact Hmono.
Defined.

(** C8, counterexample.  In verbose mode, the pass at t = 100 s samples and
    sends; with a send that fails (return code 1) the failure counter is
    where it was and the output is what it is with a send that succeeds:
    the failure is neither counted nor printed. *)
Lemma C8_counterexample :
  let m0 := started true 100 in
  sampled (fst (working_iter header_config 1 100 m0)) = true
  /\ 1 <> EXIT_SUCCESS
  /\ g_verbose m0 = true
  /\ ~ send_failure_reported m0
         (snd (working_iter header_config 1 100 m0))
         (snd (working_iter header_config 0 100 m0)).
Proof.
  cbv zeta. repeat split; try discriminate.
  unfold send_failure_reported. intros [H|H].
  - apply H. vm_compute. reflexivity.
  - apply H; vm_compute; reflexivity.
Qed.

Lemma C8_witness :
  (forall from to pid data len w,
      snd (const_send_raw_packet 1 from to pid data len w)
      = snd (const_send_raw_packet 0 from to pid data len w))
  /\ (forall now m1,
         working_iter header_config 1 now m1
         = working_iter header_config 0 now m1)
  /\ main_loop wod_fs 32 working_log_append working_log_add_to_directory
       (const_send_raw_packet 1) header_config "/tmp/wod" (clock 0 1 601)
       (started true 0)
     = main_loop wod_fs 32 working_log_append working_log_add_to_directory
         (const_send_raw_packet 0) header_config "/tmp/wod" (clock 0 1 601)
         (started true 0).
Proof.
  split; [reflexivity|].
  apply (C8_send_result_is_dropped wod_fs 32 working_log_append
           working_log_add_to_directory (const_send_raw_packet 0)
           (const_send_raw_packet 1) header_config "/tmp/wod"
           (clock 0 1 601) (started true 0)).
  reflexivity.
Defined.

(** [tlm_send_time] at 0x6543210F seconds. *)
Lemma C9_witness :
  let res := tlm_send_time wod_fs (const_send_raw_packet 0) 0x6543210F
               (started false 0) in
  trace (snd res)
  = [EvSendRawPacket "AMSAT-11" "TIME-1" 0xF0
       (PayloadBytes [0x0F; 0x21; 0x43; 0x65]) 4]
  /\ fst res = 0.
Proof.
  destruct (C9_tlm_send_time_packet wod_fs (const_send_raw_packet 0)
              0x6543210F (started false 0))
    as (b0 & b1 & b2 & b3 & Htr & -> & -> & -> & -> & _ & _ & Hrc & _).
  split; [exact Htr|exact Hrc].
Defined.

Lemma C10_witness :
  0 < period_to_sample_telem_in_seconds header_config
  /\ period_to_sample_telem_in_seconds header_config < 1000
  /\ 1000 <= 1003
  /\ let start := started false 1000 in
     let log := fst (working_main false 1000 (clock 1003 1 100)) in
     last_time_checked_period_to_sample_telem start = 0
     /\ last_time_checked_wod start = 1000
     /\ (exists r1 tl, log = (1003, r1) :: tl /\ sampled r1 = true)
     /\ (forall t r, In (t, r) log -> did_store r = true ->
           t - 1000 > period_to_store_wod_in_seconds header_config).
Proof.
  split; [reflexivity|]. split; [reflexivity|]. split; [discriminate|].
  apply (C10_startup_asymmetry wod_fs 32 working_log_append
           working_log_add_to_directory (const_send_raw_packet 0)
           header_config "/tmp/wod" 1000 1003 (clock 1004 1 99) false
           empty_fs).
  - reflexivity.
  - reflexivity.
  - discriminate.
Defined.

End Runs.

(** ** The WOD path and the options *)

Lemma length_append (a b : string) :
  String.length (a ++ b) = (String.length a + String.length b)%nat.
Proof. induction a as [|c a IH]; cbn; [reflexivity|]. rewrite IH. reflexivity. Qed.

Lemma substring_0_length (n : nat) (s : string) :
  String.length (substring 0 n s) = Nat.min n (String.length s).
Proof.
  revert s. induction n as [|n IH]; intros [|c s]; cbn; try reflexivity.
  rewrite IH. reflexivity.
Qed.

Lemma substring_0_all (n : nat) (s : string) :
  (String.length s <= n)%nat -> substring 0 n s = s.
Proof.
  revert s. induction n as [|n IH]; intros [|c s] H; cbn in *;
    try reflexivity; try lia.
  rewrite IH by lia. reflexivity.
Qed.

Lemma substring_0_append (n : nat) (a b : string) :
  (n <= String.length a)%nat -> substring 0 n (a ++ b) = substring 0 n a.
Proof.
  revert a. induction n as [|n IH]; intros [|c a] H; cbn in *;
    try reflexivity; try lia.
  - destruct b; reflexivity.
  - rewrite IH by lia. reflexivity.
Qed.

Lemma substring_0_idem (n : nat) (s : string) :
  substring 0 n (substring 0 n s) = substring 0 n s.
Proof.
  apply substring_0_all. rewrite substring_0_length. lia.
Qed.

(** X1.  When the data folder name has at most 251 characters the WOD path
    is the folder name followed by "/wod". *)
Theorem wod_telem_path_exact (data_folder_path : string) :
  (String.length data_folder_path <= 251)%nat ->
  make_wod_telem_path data_folder_path = (data_folder_path ++ "/wod")%string.
Proof.
  intros H. unfold make_wod_telem_path, WOD_PATH.
  change (MAX_FILE_PATH_LEN - 1)%nat with 255%nat.
  rewrite (substring_0_all 255 data_folder_path) by lia.
  apply substring_0_all. rewrite length_append. cbn. lia.
Qed.

(** X2.  When the folder name has 255 characters or more, the WOD path
    is its first 255 characters: neither "/" nor "wod" is appended, so
    the path names the folder itself. *)
Theorem wod_telem_path_overlong (data_folder_path : string) :
  (255 <= String.length data_folder_path)%nat ->
  make_wod_telem_path data_folder_path = substring 0 255 data_folder_path.
Proof.
  intros H. unfold make_wod_telem_path.
  change (MAX_FILE_PATH_LEN - 1)%nat with 255%nat.
  rewrite substring_0_append; [apply substring_0_idem|].
  rewrite substring_0_length. lia.
Qed.

Lemma parse_options_seen (results : list (Z * string)) :
  forall o, parse_options results o = parse_options (seen_options results) o.
Proof.
  induction results as [|[c a] rest IH]; intros o; [reflexivity|].
  cbn. destruct (c <? 0) eqn:E; [reflexivity|]. cbn. rewrite E. apply IH.
Qed.

Lemma seen_options_nonneg (results : list (Z * string)) :
  forall p, In p (seen_options results) -> 0 <= fst p.
Proof.
  induction results as [|[c a] rest IH]; intros p Hin; [destruct Hin|].
  cbn in Hin. destruct (c <? 0) eqn:E; [destruct Hin|].
  apply Z.ltb_ge in E. destruct Hin as [<-|Hin]; [exact E|apply IH, Hin].
Qed.

Lemma parse_options_fold (seen : list (Z * string)) :
  (forall p, In p seen -> 0 <= fst p) ->
  forall o,
    more_help (parse_options seen o)
    = more_help o || existsb (is_opt "h") seen
    /\ opt_verbose (parse_options seen o)
       = opt_verbose o || existsb (is_opt "v") seen
    /\ opt_data_folder_path (parse_options seen o)
       = last_data_folder seen (opt_data_folder_path o).
Proof.
  induction seen as [|[c a] rest IH]; intros Hpos o.
  - cbn. rewrite !orb_false_r. auto.
  - assert (Hc : (c <? 0) = false)
      by (apply Z.ltb_ge; apply (Hpos (c, a)); left; reflexivity).
    cbn [parse_options]. rewrite Hc.
    destruct (IH (fun p H => Hpos p (or_intror H)) (option_step c a o))
      as (-> & -> & ->).
    cbn [existsb last_data_folder].
    change (is_opt "h" (c, a)) with (c =? opt_char "h").
    change (is_opt "v" (c, a)) with (c =? opt_char "v").
    unfold option_step.
    destruct (c =? opt_char "h") eqn:Eh.
    { apply Z.eqb_eq in Eh. subst c. cbn. rewrite !orb_true_r. auto. }
    destruct (c =? opt_char "v") eqn:Ev.
    { apply Z.eqb_eq in Ev. subst c. cbn. rewrite !orb_true_r. auto. }
    destruct (c =? opt_char "d") eqn:Ed; cbn; auto.
Qed.

Lemma last_data_folder_length (seen : list (Z * string)) :
  forall d, (String.length d <= 255)%nat ->
            (String.length (last_data_folder seen d) <= 255)%nat.
Proof.
  induction seen as [|[c a] rest IH]; intros d Hd; [exact Hd|].
  cbn [last_data_folder]. apply IH.
  destruct (c =? opt_char "d"); [|exact Hd].
  change (MAX_FILE_PATH_LEN - 1)%nat with 255%nat.
  rewrite substring_0_length. lia.
Qed.

(** X3.  What the option loop leaves behind depends only on the results
    [getopt_long] gave before its first negative one: help is wanted
    exactly when an 'h' is among them, verbose mode is on exactly when a
    'v' is, the data folder is the argument of the last 'd' cut to 255
    characters ("/tmp" when there is none), and every other result, such
    as '?' for an unknown option, changes nothing.  The data folder and
    the WOD path never exceed 255 characters. *)
Theorem parse_options_spec (results : list (Z * string)) :
  let o := parse_options results initial_options in
  more_help o = existsb (is_opt "h") (seen_options results)
  /\ opt_verbose o = existsb (is_opt "v") (seen_options results)
  /\ opt_data_folder_path o = last_data_folder (seen_options results) "/tmp"
  /\ (String.length (opt_data_folder_path o) <= 255)%nat
  /\ (String.length (make_wod_telem_path (opt_data_folder_path o))
      <= 255)%nat.
Proof.
  cbv zeta. rewrite parse_options_seen.
  destruct (parse_options_fold (seen_options results)
              (seen_options_nonneg results) initial_options)
    as (-> & -> & ->).
  cbn [more_help opt_verbose opt_data_folder_path initial_options orb].
  repeat split.
  - apply last_data_folder_length. cbn. lia.
  - unfold make_wod_telem_path.
    change (MAX_FILE_PATH_LEN - 1)%nat with 255%nat.
    rewrite substring_0_length. lia.
Qed.

Section StartFacts.

Variable World : Type.
Variable sizeof_sensor_telemetry : Z.
Variable log_append : string -> sensor_telemetry_t -> Z -> World -> Z * World.
Variable log_add_to_directory : string -> World -> World.
Variable send_raw_packet :
  string -> string -> Z -> payload -> Z -> World -> Z * World.
Variable cfg : config.

Set Warnings "-notation-for-abbreviation".

Local Notation program' :=
  (program World sizeof_sensor_telemetry log_append log_add_to_directory
           send_raw_packet cfg).

(** X4.  A help option wins over everything else: when an 'h' is among
    the results seen, wherever it stands and whatever the other options,
    the thread result, the clock and the collaborators are, the program
    prints the usage text and exits with status 0 without starting the
    TNC thread or making a single pass of the loop. *)
Theorem help_exits_before_anything_else (results : list (Z * string))
    (thread_rc t0 : Z) (ticks : list Z) (w : World) :
  existsb (is_opt "h") (seen_options results) = true ->
  program' results thread_rc t0 ticks w
  = ExitedAtStart 0 [StUsage; StExit 0].
Proof.
  intros Hh. unfold program.
  destruct (parse_options_spec results) as (E & _). cbv zeta in E.
  rewrite E, Hh. reflexivity.
Qed.

(** X5.  Without a help option the program goes on to start the TNC
    thread.  When that fails it prints the fatal message and exits with
    the code [pthread_create] returned, and the loop is never entered.
    When it succeeds the program sleeps 3 seconds and runs the loop: on
    the WOD path made from the last [-d] folder ("/tmp" by default), in
    verbose mode exactly when a 'v' was seen, starting from the initial
    globals. *)
Theorem start_without_help (results : list (Z * string))
    (thread_rc t0 : Z) (ticks : list Z) (w : World) :
  existsb (is_opt "h") (seen_options results) = false ->
  let verbose := existsb (is_opt "v") (seen_options results) in
  let path := make_wod_telem_path
                (last_data_folder (seen_options results) "/tmp") in
  let banner := if verbose then [StBanner] else [] in
  (thread_rc <> 0 ->
   program' results thread_rc t0 ticks w
   = ExitedAtStart thread_rc
       (banner ++ [StThreadCreate; StFatalThread; StExit thread_rc]))
  /\ (thread_rc = 0 ->
      program' results thread_rc t0 ticks w
      = let res := main World sizeof_sensor_telemetry log_append
                     log_add_to_directory send_raw_packet cfg path t0 ticks
                     (initial_machine World verbose w) in
        Ran (banner ++ [StThreadCreate; StSleep 3]) path (fst res)
            (snd res)).
Proof.
  intros Hh. cbv zeta. unfold program.
  destruct (parse_options_spec results) as (E1 & E2 & E3 & _).
  cbv zeta in E1, E2, E3. rewrite E1, E2, E3, Hh.
  split; intros Hrc.
  - apply Z.eqb_neq in Hrc. unfold EXIT_SUCCESS. rewrite Hrc. reflexivity.
  - subst thread_rc. cbn [Z.eqb EXIT_SUCCESS].
    destruct (main _ _ _ _ _ _ _ _ _ _) as [log m]. reflexivity.
Qed.

End StartFacts.

(** ** Further runs *)

Module MoreRuns.
Import Collab.

Lemma wod_telem_path_exact_witness :
  (String.length "/tmp" <= 251)%nat
  /\ make_wod_telem_path "/tmp" = "/tmp/wod"%string.
Proof.
  split; [cbn; lia|].
  apply (wod_telem_path_exact "/tmp"). cbn. lia.
Defined.

Lemma wod_telem_path_overlong_witness :
  let s := string_of_list_ascii (repeat "x"%char 300) in
  (255 <= String.length s)%nat
  /\ make_wod_telem_path s = substring 0 255 s.
Proof.
  cbv zeta.
  assert (H : (255 <= String.length
                        (string_of_list_ascii (repeat "x"%char 300)))%nat)
    by (apply Nat.leb_le; vm_compute; reflexivity).
  split; [exact H|].
  exact (wod_telem_path_overlong _ H).
Defined.

(** [-v -d /data -h]: help wins. *)
Lemma help_exits_before_anything_else_witness :
  let results := [(opt_char "v", ""%string); (opt_char "d", "/data"%string);
                  (opt_char "h", ""%string); (-1, ""%string)] in
  existsb (is_opt "h") (seen_options results) = true
  /\ program wod_fs 32 working_log_append working_log_add_to_directory
       (const_send_raw_packet 0) header_config results 7 0 (clock 0 1 10)
       empty_fs
     = ExitedAtStart 0 [StUsage; StExit 0].
Proof.
  cbv zeta. split; [reflexivity|].
  apply help_exits_before_anything_else. reflexivity.
Defined.

(** [-v -d /data]: a result after the one that ends the loop is not
    looked at. *)
Lemma start_without_help_witness :
  let results := [(opt_char "v", ""%string); (opt_char "d", "/data"%string);
                  (-1, ""%string); (opt_char "h", ""%string)] in
  existsb (is_opt "h") (seen_options results) = false
  /\ (7 <> 0 ->
      program wod_fs 32 working_log_append working_log_add_to_directory
        (const_send_raw_packet 0) header_config results 7 0 (clock 0 1 10)
        empty_fs
      = ExitedAtStart 7 [StBanner; StThreadCreate; StFatalThread; StExit 7])
  /\ (0 = 0 ->
      program wod_fs 32 working_log_append working_log_add_to_directory
        (const_send_raw_packet 0) header_config results 0 0 (clock 0 1 10)
        empty_fs
      = let res := main wod_fs 32 working_log_append
                     working_log_add_to_directory (const_send_raw_packet 0)
                     header_config "/data/wod" 0 (clock 0 1 10)
                     (initial_machine wod_fs true empty_fs) in
        Ran [StBanner; StThreadCreate; StSleep 3] "/data/wod" (fst res)
            (snd res)).
Proof.
  cbv zeta. split; [reflexivity|]. split.
  - apply (start_without_help wod_fs 32 working_log_append
             working_log_add_to_directory (const_send_raw_packet 0)
             header_config
             [(opt_char "v", ""%string); (opt_char "d", "/data"%string);
              (-1, ""%string); (opt_char "h", ""%string)] 7 0 (clock 0 1 10)
             empty_fs).
    reflexivity.
  - apply (start_without_help wod_fs 32 working_log_append
             working_log_add_to_directory (const_send_raw_packet 0)
             header_config
             [(opt_char "v", ""%string); (opt_char "d", "/data"%string);
              (-1, ""%string); (opt_char "h", ""%string)] 0 0 (clock 0 1 10)
             empty_fs).
    reflexivity.
Defined.

(** A quiet run on a destination that cannot be written. *)
Lemma quiet_run_prints_only_the_exit_message_witness :
  let run := main_loop wod_fs 32 (broken_log_append 0)
               working_log_add_to_directory (const_send_raw_packet 0)
               header_config "/tmp/wod" (clock 0 1 400) (started false 0) in
  g_verbose (started false 0) = false
  /\ g_verbose (snd run) = false
  /\ filter is_printf (trace (snd run))
     = filter is_printf (trace (started false 0))
       ++ (if has_exited (fst run) then [EvPrintf MsgTooManyErrors] else []).
Proof.
  cbv zeta. split; [reflexivity|].
  apply (quiet_run_prints_only_the_exit_message wod_fs 32
           (broken_log_append 0) working_log_add_to_directory
           (const_send_raw_packet 0) header_config "/tmp/wod").
  reflexivity.
Defined.

Lemma store_attempts_spaced_witness :
  let log := fst (main_loop wod_fs 32 (broken_log_append 0)
                    working_log_add_to_directory (const_send_raw_packet 0)
                    header_config "/tmp/wod" [61; 122] (started false 0)) in
  let r1 := snd (nth 0 log (0, IterReport None false false)) in
  let r2 := snd (nth 1 log (0, IterReport None false false)) in
  log = [] ++ (61, r1) :: [] ++ (122, r2) :: []
  /\ did_store r1 = true /\ did_store r2 = true
  /\ period_to_store_wod_in_seconds header_config < 122 - 61.
Proof.
  cbv zeta. split; [vm_compute; reflexivity|].
  split; [vm_compute; reflexivity|]. split; [vm_compute; reflexivity|].
  eapply (store_attempts_spaced wod_fs 32 (broken_log_append 0)
            working_log_add_to_directory (const_send_raw_packet 0)
            header_config "/tmp/wod" [61; 122] (started false 0)
            [] 61 _ [] 122 _ []);
    vm_compute; reflexivity.
Defined.

(** Maximum 0 errors and store period 1 s: the first failed append, 2 s
    after the start, ends the run. *)
Lemma exit_not_before_witness :
  let cfg := Config 10 1 10 0 in
  let log := fst (main wod_fs 32 (broken_log_append 0)
                    working_log_add_to_directory (const_send_raw_packet 0)
                    cfg "/tmp/wod" 0 [2; 3]
                    (initial_machine wod_fs false empty_fs)) in
  let r := snd (nth 0 log (0, IterReport None false false)) in
  0 <= max_number_file_io_errors cfg
  /\ In (2, r) log
  /\ exited r = true
  /\ (max_number_file_io_errors cfg + 1)
     * (period_to_store_wod_in_seconds cfg + 1) <= 2 - 0.
Proof.
  cbv zeta. split; [discriminate|].
  split; [left; vm_compute; reflexivity|].
  split; [vm_compute; reflexivity|].
  eapply (exit_not_before wod_fs 32 (broken_log_append 0)
            working_log_add_to_directory (const_send_raw_packet 0)
            (Config 10 1 10 0) "/tmp/wod" 0 [2; 3] false empty_fs 2 _).
  - discriminate.
  - left. vm_compute. reflexivity.
  - vm_compute. reflexivity.
Defined.

(** A sample 100 s after the 32-bit stamp has wrapped. *)
Lemma sample_stamp_is_reading_mod_2_32_witness :
  let now := 2 ^ 32 + 100 in
  let res := working_iter header_config 0 now (started false 0) in
  sampled (fst res) = true
  /\ g_sensor_telemetry (snd res) = SensorTelemetry 100 11 55 1 66 22 1
  /\ timestamp (g_sensor_telemetry (snd res)) <> now.
Proof.
  cbv zeta.
  assert (Hs : sampled (fst (working_iter header_config 0 (2 ^ 32 + 100)
                               (started false 0))) = true)
    by (vm_compute; reflexivity).
  destruct (sample_stamp_is_reading_mod_2_32 wod_fs 32 working_log_append
              working_log_add_to_directory (const_send_raw_packet 0)
              header_config "/tmp/wod" (2 ^ 32 + 100) (started false 0) Hs)
    as (Hf & Hiff & _).
  split; [exact Hs|]. split; [exact Hf|].
  intros E. apply Hiff in E. vm_compute in E. destruct E as [_ E].
  discriminate E.
Defined.

(** A frame stamped 3000000000: the packet carries the stamp, the debug
    line shows -1294967296. *)
Lemma tlm_send_sensor_telem_packet_witness :
  let f := SensorTelemetry 3000000000 11 55 1 66 22 1 in
  trace (snd (tlm_send_sensor_telem wod_fs 32 (const_send_raw_packet 0)
                (Machine false f 0 0 0 empty_fs [])))
  = [EvDebugPrint (MsgSendingTelem (-1294967296));
     EvSendRawPacket "AMSAT-11" "TLMP1" 0xF0 (PayloadFrame f) 32].
Proof.
  cbv zeta.
  destruct (tlm_send_sensor_telem_packet wod_fs 32 (const_send_raw_packet 0)
              (Machine false (SensorTelemetry 3000000000 11 55 1 66 22 1)
                 0 0 0 empty_fs []))
    as (shown & Htr & _ & Hneg & _).
  cbn [g_sensor_telemetry timestamp trace app] in Htr, Hneg.
  rewrite Htr, Hneg by (split; [discriminate|reflexivity]).
  reflexivity.
Defined.

Lemma unit_clock_samples_every_P_plus_1_witness :
  let log := fst (main_loop wod_fs 32 working_log_append
                    working_log_add_to_directory (const_send_raw_packet 0)
                    header_config "/tmp/wod" (clock 0 1 23)
                    (started false 0)) in
  let d := (0, IterReport None false false) in
  0 < period_to_sample_telem_in_seconds header_config
  /\ log = firstn 11 log ++ (11, snd (nth 11 log d))
             :: firstn 10 (skipn 12 log) ++ (22, snd (nth 22 log d)) :: []
  /\ 22 - 11 = period_to_sample_telem_in_seconds header_config + 1.
Proof.
  cbv zeta.
  set (log := fst (main_loop wod_fs 32 working_log_append
                     working_log_add_to_directory (const_send_raw_packet 0)
                     header_config "/tmp/wod" (clock 0 1 23)
                     (started false 0))).
  set (d := (0, IterReport None false false)).
  assert (Hlog : log = firstn 11 log ++ (11, snd (nth 11 log d))
                         :: firstn 10 (skipn 12 log)
                            ++ (22, snd (nth 22 log d)) :: [])
    by (vm_compute; reflexivity).
  split; [reflexivity|]. split; [exact Hlog|].
  apply (unit_clock_samples_every_P_plus_1 wod_fs 32 working_log_append
           working_log_add_to_directory (const_send_raw_packet 0)
           header_config "/tmp/wod" 23 0 (started false 0)
           (firstn 11 log) 11 (snd (nth 11 log d))
           (firstn 10 (skipn 12 log)) 22 (snd (nth 22 log d)) []).
  - reflexivity.
  - exact Hlog.
  - vm_compute. reflexivity.
  - vm_compute. reflexivity.
  - vm_compute. reflexivity.
Defined.

Lemma unit_clock_stores_every_P_plus_1_witness :
  let log := fst (main_loop wod_fs 32 working_log_append
                    working_log_add_to_directory (const_send_raw_packet 0)
                    header_config "/tmp/wod" (clock 0 1 123)
                    (started false 0)) in
  let d := (0, IterReport None false false) in
  log = firstn 61 log ++ (61, snd (nth 61 log d))
          :: firstn 60 (skipn 62 log) ++ (122, snd (nth 122 log d)) :: []
  /\ 122 - 61 = period_to_store_wod_in_seconds header_config + 1.
Proof.
  cbv zeta.
  set (log := fst (main_loop wod_fs 32 working_log_append
                     working_log_add_to_directory (const_send_raw_packet 0)
                     header_config "/tmp/wod" (clock 0 1 123)
                     (started false 0))).
  set (d := (0, IterReport None false false)).
  assert (Hlog : log = firstn 61 log ++ (61, snd (nth 61 log d))
                         :: firstn 60 (skipn 62 log)
                            ++ (122, snd (nth 122 log d)) :: [])
    by (vm_compute; reflexivity).
  split; [exact Hlog|].
  apply (unit_clock_stores_every_P_plus_1 wod_fs 32 working_log_append
           working_log_add_to_directory (const_send_raw_packet 0)
           header_config "/tmp/wod" 123 0 (started false 0)
           (firstn 61 log) 61 (snd (nth 61 log d))
           (firstn 60 (skipn 62 log)) 122 (snd (nth 122 log d)) []).
  - exact Hlog.
  - vm_compute. reflexivity.
  - vm_compute. reflexivity.
  - vm_compute. reflexivity.
Defined.

End MoreRuns.
